(** * IMF Gadget API: the gadget lifecycle and the self-destruct handshake

    A shallow embedding of [routes/gadgets.js], [models/gadget.js] and
    [routes/auth.js], and the properties the specification states about
    them.

    Conventions of the embedding:
    - a [Date] is its number of milliseconds since the epoch, a [Z];
    - every read of the clock ([new Date()], the ORM's stamp on a write)
      and every call of [Math.random] is an argument of the handler that
      makes it;
    - the gadget table is a finite map from the primary key, the
      canonical text of a uuid, to the row, and a row is found by the
      value of the uuid an id spells, as the database compares them; the
      users table is a finite map from the username, which is unique; the
      process-wide object [pendingSelfDestructCodes] is a finite map of its
      own properties, read through the prototype chain as JavaScript reads
      it;
    - a route handler is a function from the world before the request to
      the reply and the world after it. *)

From Stdlib Require Import ZArith Lia Ascii String.
From stdpp Require Import gmap strings list fin_maps.

Local Open Scope string_scope.
Local Open Scope Z_scope.

(** ** JavaScript values, as far as the handlers look at them *)

(** [JObject] stands for any object or function.  Two objects are compared
    by reference; the only objects met below are the members of
    [Object.prototype] on one side and values fresh from the JSON parser on
    the other, so no two of them are ever the same reference. *)
Inductive JsVal :=
| JUndefined
| JNull
| JBool (b : bool)
| JNum (n : Z)
| JStr (s : string)
| JObject.

(** ToBoolean. *)
Definition truthy (v : JsVal) : bool :=
  match v with
  | JUndefined | JNull => false
  | JBool b => b
  | JNum n => negb (n =? 0)
  | JStr s => negb (String.eqb s "")
  | JObject => true
  end.

(** [a === b]. *)
Definition strict_eq (a b : JsVal) : bool :=
  match a, b with
  | JUndefined, JUndefined => true
  | JNull, JNull => true
  | JBool x, JBool y => Bool.eqb x y
  | JNum x, JNum y => x =? y
  | JStr x, JStr y => String.eqb x y
  | _, _ => false
  end.

(** The names every plain object inherits from [Object.prototype]. *)
Definition Object_prototype_keys : list string :=
  [ "constructor"; "__proto__"; "hasOwnProperty"; "isPrototypeOf";
    "propertyIsEnumerable"; "toLocaleString"; "toString"; "valueOf";
    "__defineGetter__"; "__defineSetter__"; "__lookupGetter__";
    "__lookupSetter__" ].

Definition inherited (k : string) : bool :=
  existsb (String.eqb k) Object_prototype_keys.

(** [o[k]] on an object literal whose own properties are the strings of [o]:
    an own property first, then the prototype. *)
Definition js_get (o : gmap string string) (k : string) : JsVal :=
  match o !! k with
  | Some v => JStr v
  | None => if inherited k then JObject else JUndefined
  end.

(** [o[k] = v] for a string [v]: the accessor [__proto__] ignores a value
    that is neither an object nor null; every other name becomes (or
    overwrites) an own property. *)
Definition js_set (o : gmap string string) (k v : string) : gmap string string :=
  if String.eqb k "__proto__" then o else <[k := v]> o.

(** [delete o[k]]: removes an own property, if there is one. *)
Definition js_delete (o : gmap string string) (k : string) : gmap string string :=
  delete k o.

(** [Number.prototype.toString] on a non-negative integer: its decimal
    digits, most significant first, no leading zero. *)
Definition digit_char (d : Z) : ascii := ascii_of_nat (48 + Z.to_nat d).

Fixpoint to_digits (fuel : nat) (n : Z) (acc : string) : string :=
  match fuel with
  | O => acc
  | S fuel' =>
      let acc' := String (digit_char (n mod 10)) acc in
      if n / 10 =? 0 then acc' else to_digits fuel' (n / 10) acc'
  end.

(** A number has no more decimal digits than binary ones. *)
Definition Number_toString (n : Z) : string :=
  to_digits (S (Z.to_nat (Z.log2 n))) n "".

(** ** Gadget ids

    The primary key is a [DataTypes.UUID] defaulting to [UUIDV4], and the
    routes document their [:id] parameter as [format: uuid]: a gadget id is
    the canonical text of a UUID, 8-4-4-4-12 hexadecimal digits. *)
Definition is_hex (c : ascii) : bool :=
  let n := nat_of_ascii c in
  ((48 <=? n) && (n <=? 57) || (97 <=? n) && (n <=? 102)
   || (65 <=? n) && (n <=? 70))%nat.

Fixpoint hex_run (n : nat) (s : string) : option string :=
  match n with
  | O => Some s
  | S n' =>
      match s with
      | String c s' => if is_hex c then hex_run n' s' else None
      | EmptyString => None
      end
  end.

(** The groups of hexadecimal digits, separated by single hyphens. *)
Fixpoint uuid_groups (groups : list nat) (s : string) : bool :=
  match groups with
  | [] => false
  | n :: rest =>
      match hex_run n s, rest with
      | Some EmptyString, [] => true
      | Some (String "-"%char s'), _ :: _ => uuid_groups rest s'
      | _, _ => false
      end
  end.

Definition is_uuid (s : string) : bool :=
  uuid_groups [8; 4; 4; 4; 12]%nat s.

(** The column is a PostgreSQL [uuid]: a text compared with it is first
    read as a uuid, and two uuids are equal when their sixteen bytes are.
    The input routine takes upper-case digits for lower-case ones, an
    optional pair of braces around the text, and an optional hyphen after
    any group of four digits; any other text is a syntax error.  The output
    is the canonical text, lower-case, 8-4-4-4-12. *)
Definition lower_hex (c : ascii) : ascii :=
  let n := nat_of_ascii c in
  if ((65 <=? n) && (n <=? 70))%nat then ascii_of_nat (n + 32) else c.

(** The hyphen the input routine passes over after byte [index], the
    last one excepted: [src[0] == '-' && (i % 2) == 1 && i < UUID_LEN - 1]. *)
Definition skip_hyphen (index : nat) (s : string) : string :=
  match s with
  | String "-"%char t =>
      if (Nat.odd index && (index <? 15))%nat then t else s
  | _ => s
  end.

(** [left] bytes still to read, [index] the number of those read: the
    thirty-two digits in lower case, and what follows them. *)
Fixpoint uuid_bytes (left index : nat) (s : string) : option (string * string) :=
  match left with
  | O => Some (EmptyString, s)
  | S left' =>
      match s with
      | String a (String b s') =>
          if is_hex a && is_hex b then
            '(digits, rest) ← uuid_bytes left' (S index) (skip_hyphen index s');
            Some (String (lower_hex a) (String (lower_hex b) digits), rest)
          else None
      | _ => None
      end
  end.

Definition uuid_in (s : string) : option string :=
  let '(closing, body) :=
    match s with
    | String "{"%char t => ("}", t)
    | _ => ("", s)
    end in
  '(digits, rest) ← uuid_bytes 16 0 body;
  if String.eqb rest closing then Some digits else None.

Definition uuid_out (digits : string) : string :=
  String.append (substring 0 8 digits)
    (String "-" (String.append (substring 8 4 digits)
       (String "-" (String.append (substring 12 4 digits)
          (String "-" (String.append (substring 16 4 digits)
             (String "-" (substring 20 12 digits)))))))).

(** ** The Gadget model ([models/gadget.js] and its migration) *)

Inductive Status := Available | Deployed | Destroyed | Decommissioned.

#[global] Instance Status_eq_dec : EqDecision Status.
Proof. solve_decision. Defined.

(** The labels of the ENUM column. *)
Definition status_name (s : Status) : string :=
  match s with
  | Available => "Available"
  | Deployed => "Deployed"
  | Destroyed => "Destroyed"
  | Decommissioned => "Decommissioned"
  end.

Definition parse_status (s : string) : option Status :=
  if String.eqb s "Available" then Some Available
  else if String.eqb s "Deployed" then Some Deployed
  else if String.eqb s "Destroyed" then Some Destroyed
  else if String.eqb s "Decommissioned" then Some Decommissioned
  else None.

Module Gadget.
(** A row of the table [Gadgets]: the four attributes of [Gadget.init] and
    the two timestamps of the migration, which the ORM maintains. *)
Record t := Build {
  id : string;
  name : string;
  status : Status;
  decommissionedAt : option Z;
  createdAt : Z;
  updatedAt : Z
}.

Definition with_decommissionedAt (d : option Z) (g : t) : t :=
  Build (id g) (name g) (status g) d (createdAt g) (updatedAt g).

Definition with_updatedAt (u : Z) (g : t) : t :=
  Build (id g) (name g) (status g) (decommissionedAt g) (createdAt g) u.

(** Equal but for [updatedAt]. *)
Definition same_data (a b : t) : Prop :=
  id a = id b ∧ name a = name b ∧ status a = status b
  ∧ decommissionedAt a = decommissionedAt b ∧ createdAt a = createdAt b.

#[global] Instance eq_dec : EqDecision t.
Proof. solve_decision. Defined.

(** The [beforeUpdate] hook of the model.  The timestamp of the instance
    is [Some] for a [Date], which is an object, hence truthy, and [None]
    for what [!gadget.decommissionedAt] holds of: [null], and the falsy
    number [set] has left in the instance. *)
Definition beforeUpdate (now : Z) (gadget : t) : t :=
  if bool_decide (status gadget = Decommissioned)
     && negb (bool_decide (is_Some (decommissionedAt gadget)))
  then with_decommissionedAt (Some now) gadget
  else if negb (bool_decide (status gadget = Decommissioned))
  then with_decommissionedAt None gadget
  else gadget.

(** *** The ORM's side of the model

    [findByPk], [findOne], [create] and [update] are Sequelize's.  What
    follows is their contract on this model, for the typed values a JSON
    body can carry at the model's attributes. *)

(** The [values] handed to [update]: for each attribute of the model,
    [None] when the key is absent, [Some None] for [null].  A timestamp is
    the number of a JSON body or the milliseconds of the [Date] of a
    route. *)
Record Values := {
  v_id : option (option string);
  v_name : option (option string);
  v_status : option (option string);
  v_decommissionedAt : option (option Z);
  v_createdAt : option (option Z);
  v_updatedAt : option (option Z)
}.

(** The primary key a text stands for: the canonical text of the uuid it
    is read as, [None] when it is no uuid. *)
Definition pk_of (text : string) : option string :=
  uuid_out <$> uuid_in text.

(** [findByPk(text)]: the row whose key is the uuid the text is read as,
    if there is one; [None]: the text is no uuid and the query throws. *)
Definition findByPk (rows : gmap string t) (text : string)
    : option (option t) :=
  key ← pk_of text; Some (rows !! key).

(** [findOne({ where: { name } })]. *)
Definition findOne_name (rows : gmap string t) (n : string) : option t :=
  (λ hit, hit.2.2) <$> list_find (λ kv, name kv.2 = n) (map_to_list rows).

(** At the DATE attribute a route hands [set] a [Date], and a JSON body a
    number.  The sanitizer of the attribute makes the [Date] of that many
    milliseconds of a number unless the number is falsy: a 0 is left the
    number it is, and [!gadget.decommissionedAt] in the hook then reads it
    as no timestamp.  [json] tells the values of a body from those of a
    route. *)
Definition falsy_date (json : bool) (values : Values) : bool :=
  json && bool_decide (v_decommissionedAt values = Some (Some 0)).

(** The milliseconds of the dates a write can store: the ORM writes a date
    as the text of its year, four digits, and the rest, which the column
    takes for the years 1 to 9999; [new Date(n)] of a number beyond the
    range of [Date] is an invalid date and is written as such a text. *)
Definition Date_ok (n : Z) : bool :=
  (-62135596800000 <=? n) && (n <=? 253402300799999).

(** [Model#set] followed by validation.  The primary key of a persisted
    instance and the timestamp attributes are read-only: entries for them
    are dropped.  [name] is [allowNull: false]; [status] is [allowNull:
    false] and must be a label of the ENUM.  A falsy number at
    [decommissionedAt] leaves the instance without a timestamp for the
    hook.  [None]: the call throws. *)
Definition set (json : bool) (values : Values) (g : t) : option t :=
  n ← match v_name values with None => Some (name g) | Some x => x end;
  s ← match v_status values with
       | None => Some (status g)
       | Some x => x ≫= parse_status
       end;
  let d := match v_decommissionedAt values with
           | None => decommissionedAt g
           | Some x => if falsy_date json values then None else x
           end in
  Some (Build (id g) n s d (createdAt g) (updatedAt g)).

(** The [fields] of the write: the keys of [values] that are attributes. *)
Definition mentions_attribute (values : Values) : bool :=
  bool_decide (is_Some (v_id values)) || bool_decide (is_Some (v_name values))
  || bool_decide (is_Some (v_status values))
  || bool_decide (is_Some (v_decommissionedAt values))
  || bool_decide (is_Some (v_createdAt values))
  || bool_decide (is_Some (v_updatedAt values)).

(** What makes the database refuse the write of an instance: a changed
    name longer than the 255 characters of the column ([DataTypes.STRING],
    a character being an [ascii] of the model) or already in the table
    ([unique]), and a date the column does not take that the hook has left
    in place. *)
Definition refused (json : bool) (values : Values) (g g2 : t)
    (rows : gmap string t) : bool :=
  bool_decide (name g2 ≠ name g)
  && ((255 <? String.length (name g2))%nat
      || bool_decide (is_Some (findOne_name rows (name g2))))
  || json && bool_decide (status g2 = Decommissioned)
     && match v_decommissionedAt values with
        | Some (Some n) => negb (Date_ok n)
        | _ => false
        end.

(** [instance.update(values)]: set, validate, run [beforeUpdate], then write
    the row under the instance's primary key when [set] or the hook changed
    an attribute.  [updatedAt] is stamped on the instance when the call
    names an attribute, and reaches the table with the write.  The result
    is the instance and the table; [None]: the call throws and the table
    is as before. *)
Definition update (json : bool) (hook_now save_now : Z) (values : Values)
    (g : t) (rows : gmap string t) : option (t * gmap string t) :=
  g1 ← set json values g;
  let g2 := beforeUpdate hook_now g1 in
  let instance :=
    if mentions_attribute values then with_updatedAt save_now g2 else g2 in
  if bool_decide (g1 = g) && bool_decide (g2 = g1)
     && negb (falsy_date json values)
  then Some (instance, rows)
  else if refused json values g g2 rows then None
  else Some (instance, <[id g := instance]> rows).

(** [Gadget.create({ name, status })]: the primary key defaults to a fresh
    [UUIDV4], [decommissionedAt] to [null], both timestamps to the time of
    the insert.  A primary key or a name already in the table throws. *)
Definition create (uuid : string) (now : Z) (n : string) (s : Status)
    (rows : gmap string t) : option (t * gmap string t) :=
  if bool_decide (is_Some (rows !! uuid))
     || bool_decide (is_Some (findOne_name rows n))
  then None
  else let g := Build uuid n s None now now in Some (g, <[uuid := g]> rows).
End Gadget.

(** ** The routes of [routes/gadgets.js] *)

(** The process: the gadget table and the object
    [pendingSelfDestructCodes]. *)
Record World := {
  gadgets : gmap string Gadget.t;
  pendingSelfDestructCodes : gmap string string
}.

(** The text of a reply's [error]: a literal of the route, or the message
    of whatever the [try] block threw. *)
Inductive Message := Text (s : string) | Thrown.

(** [res.status(code).json(body)], and [res.status(code).json({ error })]. *)
Inductive Reply (A : Type) :=
| Json (code : Z) (body : A)
| Error (code : Z) (error : Message).
Arguments Json {A} code body.
Arguments Error {A} code error.

(** The readings of the clock during one request: [new Date()] in the
    route, [new Date()] in the hook, the ORM's stamp on the write. *)
Record Clock := { at_route : Z; at_hook : Z; at_save : Z }.

(** [generateConfirmationCode], with [r] the value of
    [Math.floor(Math.random() * 90000)]. *)
Definition generateConfirmationCode (r : Z) : string :=
  Number_toString (r + 10000).

(** An entry of the list GET /gadgets replies with: the gadget and the two
    texts made of its drawn probability. *)
Record Listed := {
  gadget : Gadget.t;
  successProbability : string;
  display : string
}.

(** [Gadget.findAll({ where })], [where] being empty or one status; a
    status that is no label of the ENUM makes the query throw. *)
Definition findAll (rows : gmap string Gadget.t) (where_status : option string)
    : option (list Gadget.t) :=
  match where_status with
  | None => Some ((map_to_list rows).*2)
  | Some s =>
      st ← parse_status s;
      Some (filter (λ g, Gadget.status g = st) (map_to_list rows).*2)
  end.

(** GET /gadgets?status=.  [rand i] is [Math.floor(Math.random() * 100)]
    at the [i]-th gadget found; an empty [status] is no filter. *)
Definition List (w : World) (status : option string) (rand : nat → Z)
    : Reply (list Listed) * World :=
  let where_status :=
    match status with
    | Some s => if truthy (JStr s) then Some s else None
    | None => None
    end in
  match findAll (gadgets w) where_status with
  | Some found =>
      (Json 200
         (imap (λ i g,
                  let probability := rand i + 1 in
                  {| gadget := g;
                     successProbability := Number_toString probability +:+ "%";
                     display := Gadget.name g +:+ " - "
                                +:+ Number_toString probability
                                +:+ "% success probability" |}) found), w)
  | None => (Error 500 Thrown, w)
  end.

(** [generateCodename], with [i] the value of
    [Math.floor(Math.random() * nouns.length)]; an index past the end reads
    [undefined], which the template renders as such. *)
Definition nouns : list string :=
  [ "Nightingale"; "Kraken"; "Phantom"; "Vortex"; "Specter";
    "Maverick"; "Intruder"; "Cipher"; "Operative"; "Shadow";
    "Saboteur"; "Viper"; "Agent"; "Enigma" ].

Definition generateCodename (i : nat) : string :=
  "The " +:+ default "undefined" (nouns !! i).

(** [generateUniqueCodename]: the [while] loop draws until [findOne] finds
    no gadget of that name.  [draws] are the successive indices drawn; the
    result is the codename and the draws not consumed, or [None] when the
    loop is still running after the last of them. *)
Fixpoint generateUniqueCodename (rows : gmap string Gadget.t)
    (draws : list nat) : option (string * list nat) :=
  match draws with
  | [] => None
  | i :: rest =>
      let codename := generateCodename i in
      if bool_decide (is_Some (Gadget.findOne_name rows codename))
      then generateUniqueCodename rows rest
      else Some (codename, rest)
  end.

(** POST /gadgets.  [body] is the request body, [uuid] the primary key the
    ORM draws, [now] the time of the insert.  [None]: the handler has not
    replied (the loop of [generateUniqueCodename] is still running). *)
Definition Create (w : World) (body : gmap string JsVal) (draws : list nat)
    (uuid : string) (now : Z) : option (Reply Gadget.t * World) :=
  '(name, _) ← generateUniqueCodename (gadgets w) draws;
  match Gadget.create uuid now name Available (gadgets w) with
  | Some (gadget, rows) =>
      Some (Json 201 gadget,
            {| gadgets := rows;
               pendingSelfDestructCodes := pendingSelfDestructCodes w |})
  | None => Some (Error 400 Thrown, w)
  end.

(** PATCH /gadgets/:id. *)
Definition Update (w : World) (id : string) (updates : Gadget.Values)
    (clk : Clock) : Reply Gadget.t * World :=
  match Gadget.findByPk (gadgets w) id with
  | None => (Error 400 Thrown, w)
  | Some None => (Error 404 (Text "Gadget not found"), w)
  | Some (Some gadget) =>
      match Gadget.update true (at_hook clk) (at_save clk) updates gadget
              (gadgets w) with
      | Some (gadget', rows) =>
          (Json 200 gadget',
           {| gadgets := rows;
              pendingSelfDestructCodes := pendingSelfDestructCodes w |})
      | None => (Error 400 Thrown, w)
      end
  end.

(** DELETE /gadgets/:id. *)
Definition Decommission (w : World) (id : string) (clk : Clock)
    : Reply string * World :=
  match Gadget.findByPk (gadgets w) id with
  | None => (Error 400 Thrown, w)
  | Some None => (Error 404 (Text "Gadget not found"), w)
  | Some (Some gadget) =>
      let values :=
        {| Gadget.v_id := None; Gadget.v_name := None;
           Gadget.v_status := Some (Some "Decommissioned");
           Gadget.v_decommissionedAt := Some (Some (at_route clk));
           Gadget.v_createdAt := None; Gadget.v_updatedAt := None |} in
      match Gadget.update false (at_hook clk) (at_save clk) values gadget
              (gadgets w) with
      | Some (_, rows) =>
          (Json 200 "Gadget decommissioned",
           {| gadgets := rows;
              pendingSelfDestructCodes := pendingSelfDestructCodes w |})
      | None => (Error 400 Thrown, w)
      end
  end.

(** POST /gadgets/:id/self-destruct/generate-code, with [r] the value of
    [Math.floor(Math.random() * 90000)].  The reply carries the code. *)
Definition GenerateSelfDestructCode (w : World) (id : string) (r : Z)
    : Reply string * World :=
  match Gadget.findByPk (gadgets w) id with
  | None => (Error 400 Thrown, w)
  | Some None => (Error 404 (Text "Gadget not found"), w)
  | Some (Some _) =>
      let confirmationCode := Number_toString (r + 10000) in
      (Json 200 confirmationCode,
       {| gadgets := gadgets w;
          pendingSelfDestructCodes :=
            js_set (pendingSelfDestructCodes w) id confirmationCode |})
  end.

(** The reply of the confirm route when it finds no code. *)
Definition not_generated : Message :=
  Text "Confirmation code not generated. Please generate the code first.".

(** POST /gadgets/:id/self-destruct.  [confirmationCode] is
    [req.body.confirmationCode], [JUndefined] when the body has none. *)
Definition ConfirmSelfDestruct (w : World) (id : string)
    (confirmationCode : JsVal) (clk : Clock) : Reply string * World :=
  let storedCode := js_get (pendingSelfDestructCodes w) id in
  if negb (truthy storedCode) then
    (Error 400 not_generated, w)
  else if negb (strict_eq confirmationCode storedCode) then
    (Error 403 (Text "Invalid confirmation code"), w)
  else
    match Gadget.findByPk (gadgets w) id with
    | None => (Error 400 Thrown, w)
    | Some None => (Error 404 (Text "Gadget not found"), w)
    | Some (Some gadget) =>
        let values :=
          {| Gadget.v_id := None; Gadget.v_name := None;
             Gadget.v_status := Some (Some "Destroyed");
             Gadget.v_decommissionedAt := None;
             Gadget.v_createdAt := None; Gadget.v_updatedAt := None |} in
        match Gadget.update false (at_hook clk) (at_save clk) values gadget
                (gadgets w) with
        | Some (_, rows) =>
            (Json 200 "Gadget self-destructed",
             {| gadgets := rows;
                pendingSelfDestructCodes :=
                  js_delete (pendingSelfDestructCodes w) id |})
        | None => (Error 400 Thrown, w)
        end
    end.

(** *** Requests, and the world after one *)

Inductive Request :=
| ReqList (status : option string) (rand : nat → Z)
| ReqCreate (body : gmap string JsVal) (draws : list nat) (uuid : string)
    (now : Z)
| ReqUpdate (id : string) (updates : Gadget.Values) (clk : Clock)
| ReqDecommission (id : string) (clk : Clock)
| ReqGenerateCode (id : string) (r : Z)
| ReqConfirm (id : string) (confirmationCode : JsVal) (clk : Clock).

(** The world once the handler has replied, [None] while it has not. *)
Definition handle (w : World) (req : Request) : option World :=
  match req with
  | ReqList status rand => Some (List w status rand).2
  | ReqCreate body draws uuid now => snd <$> Create w body draws uuid now
  | ReqUpdate id updates clk => Some (Update w id updates clk).2
  | ReqDecommission id clk => Some (Decommission w id clk).2
  | ReqGenerateCode id r => Some (GenerateSelfDestructCode w id r).2
  | ReqConfirm id code clk => Some (ConfirmSelfDestruct w id code clk).2
  end.

(** The code replied, for a handler that has. *)
Definition code_of {A} (r : Reply A) : Z :=
  match r with
  | Json c _ => c
  | Error c _ => c
  end.

(** ** Well-formed worlds *)

Definition is_digit (c : ascii) : bool :=
  let n := nat_of_ascii c in ((48 <=? n) && (n <=? 57))%nat.

(** Five decimal digits, the first of them not zero. *)
Definition is_code (s : string) : bool :=
  match s with
  | String c0 (String c1 (String c2 (String c3 (String c4 EmptyString)))) =>
      is_digit c0 && negb (Ascii.eqb c0 "0") && is_digit c1 && is_digit c2
      && is_digit c3 && is_digit c4
  | _ => false
  end.

(** What every world the routes can reach satisfies: a row sits under its
    own primary key, which is the canonical text of a uuid, and a pending
    code is a five-digit code. *)
Record World_ok (w : World) : Prop := {
  keyed : ∀ k g, gadgets w !! k = Some g → Gadget.id g = k;
  canonical : ∀ k g, gadgets w !! k = Some g → Gadget.pk_of k = Some k;
  codes_ok : ∀ k c, pendingSelfDestructCodes w !! k = Some c → is_code c = true
}.

(** No two rows bear the same name. *)
Definition names_unique (rows : gmap string Gadget.t) : Prop :=
  ∀ k1 k2 g1 g2,
    rows !! k1 = Some g1 → rows !! k2 = Some g2 →
    Gadget.name g1 = Gadget.name g2 → k1 = k2.

(** The contract of the inputs a request draws: [Math.random()] lies in
    [0, 1), so its scaled floor lies below the scale; [UUIDV4] gives the
    canonical text of a uuid. *)
Definition Request_ok (req : Request) : Prop :=
  match req with
  | ReqGenerateCode _ r => 0 ≤ r < 90000
  | ReqCreate _ draws uuid _ =>
      Forall (λ i, (i < length nouns)%nat) draws ∧ Gadget.pk_of uuid = Some uuid
  | ReqList _ rand => ∀ i, 0 ≤ rand i < 100
  | _ => True
  end.

Definition initial : World :=
  {| gadgets := ∅; pendingSelfDestructCodes := ∅ |}.

(** ** The credential routes ([routes/auth.js]) *)

(** [bcrypt], as the routes and the model use it: [hash] with the salt it
    draws, and [compare] of a plaintext with a stored hash. *)
Class Bcrypt := {
  bcrypt_hash : string → string → string;
  bcrypt_compare : string → string → bool
}.

(** What the credential routes rely on: a hash is told apart from the
    plaintext it was made of, and [compare] accepts the plaintext a hash
    was made of. *)
Record BcryptLaws `{Bcrypt} : Prop := {
  hash_not_plaintext : ∀ salt plaintext,
    bcrypt_hash salt plaintext ≠ plaintext;
  compare_own_hash : ∀ salt plaintext,
    bcrypt_compare plaintext (bcrypt_hash salt plaintext) = true
}.
Arguments BcryptLaws _ : clear implicits.

Module User.
Record t := Build {
  id : Z;
  username : string;
  password : string
}.

Section Model.
Context `{Bcrypt}.

(** [User.findOne({ where: { username } })] on a table kept by username,
    which is unique. *)
Definition findOne_username (users : gmap string t) (name : string)
    : option t :=
  users !! name.

(** Modelled from the spec: [models/user.js], the User model, is not among
    the sources; the routes only call it.  The spec has the username unique
    and the password hashed before storage ("stores a hash of the password,
    never the plaintext"): [create] throws on a username already in the
    table, and otherwise stores the row with the [bcrypt] hash of the
    password it was given.  [salt] is the salt drawn, [pk] the primary key
    the table assigns. *)
Definition create (salt : string) (pk : Z) (name plaintext : string)
    (users : gmap string t) : option (t * gmap string t) :=
  if bool_decide (is_Some (users !! name)) then None
  else
    let user := Build pk name (bcrypt_hash salt plaintext) in
    Some (user, <[name := user]> users).
End Model.
End User.

(** The payload [jwt.sign({ id }, secret, { expiresIn: '1h' })] signs, in
    seconds. *)
Record Token := { token_id : Z; token_iat : Z; token_exp : Z }.

Section AuthRoutes.
Context `{Bcrypt}.

(** POST /auth/register. *)
Definition Register (users : gmap string User.t) (username password : string)
    (salt : string) (pk : Z) : Reply string * gmap string User.t :=
  match User.create salt pk username password users with
  | Some (_, users') => (Json 201 "User created", users')
  | None => (Error 400 Thrown, users)
  end.

(** POST /auth/login, at time [now]. *)
Definition Login (users : gmap string User.t) (username password : string)
    (now : Z) : Reply Token :=
  match User.findOne_username users username with
  | None => Error 401 (Text "Invalid credentials")
  | Some user =>
      let isMatch := bcrypt_compare password (User.password user) in
      if negb isMatch then Error 401 (Text "Invalid credentials")
      else Json 200 {| token_id := User.id user; token_iat := now;
                       token_exp := now + 3600 |}
  end.
End AuthRoutes.

(** A stand-in for [bcrypt] to evaluate the routes with: the hash is the
    plaintext behind a marker, whatever the salt, and [compare] re-reads
    it. *)
Definition toy_bcrypt : Bcrypt :=
  {| bcrypt_hash salt plaintext := "$2b$" +:+ plaintext;
     bcrypt_compare plaintext stored :=
       String.eqb stored ("$2b$" +:+ plaintext) |}.

(** The worlds the process goes through, from its start. *)
Inductive reachable : World → Prop :=
| reachable_initial : reachable initial
| reachable_handle w req w' :
    reachable w → Request_ok req → handle w req = Some w' → reachable w'.

(** ** A small world to evaluate the routes on *)

Definition agent_id : string := "3f2b8c1e-9a4d-4c7b-8e21-0a1b2c3d4e5f".
Definition other_id : string := "0a1b2c3d-4e5f-4a6b-9c7d-8e9f0a1b2c3d".

Definition kraken : Gadget.t :=
  Gadget.Build agent_id "The Kraken" Available None 100 100.

Definition viper : Gadget.t :=
  Gadget.Build other_id "The Viper" Deployed None 200 200.

Definition one_gadget : World :=
  {| gadgets := {[ agent_id := kraken ]}; pendingSelfDestructCodes := ∅ |}.

Definition two_gadgets : World :=
  {| gadgets := <[ other_id := viper ]> {[ agent_id := kraken ]};
     pendingSelfDestructCodes := ∅ |}.

(** All three readings of the clock at one instant. *)
Definition at_time (t : Z) : Clock :=
  {| at_route := t; at_hook := t; at_save := t |}.

(** A gadget after its self-destruct. *)
Definition wreck : Gadget.t :=
  Gadget.Build agent_id "The Kraken" Destroyed None 100 300.

Definition destroyed_gadget : World :=
  {| gadgets := {[ agent_id := wreck ]}; pendingSelfDestructCodes := ∅ |}.

(** Bodies of a PATCH that carry one status and nothing else, and one that
    also tries the primary key and the creation time. *)
Definition status_only (s : Status) : Gadget.Values :=
  {| Gadget.v_id := None; Gadget.v_name := None;
     Gadget.v_status := Some (Some (status_name s));
     Gadget.v_decommissionedAt := None;
     Gadget.v_createdAt := None; Gadget.v_updatedAt := None |}.

Definition status_and_keys (s : Status) : Gadget.Values :=
  {| Gadget.v_id := Some (Some other_id); Gadget.v_name := None;
     Gadget.v_status := Some (Some (status_name s));
     Gadget.v_decommissionedAt := None;
     Gadget.v_createdAt := Some (Some 7); Gadget.v_updatedAt := None |}.

(** Bodies of a PATCH that carry one name, or one status as sent. *)
Definition name_only (n : string) : Gadget.Values :=
  {| Gadget.v_id := None; Gadget.v_name := Some (Some n);
     Gadget.v_status := None; Gadget.v_decommissionedAt := None;
     Gadget.v_createdAt := None; Gadget.v_updatedAt := None |}.

Definition raw_status (s : string) : Gadget.Values :=
  {| Gadget.v_id := None; Gadget.v_name := None;
     Gadget.v_status := Some (Some s); Gadget.v_decommissionedAt := None;
     Gadget.v_createdAt := None; Gadget.v_updatedAt := None |}.

(** The first gadget once a PATCH at time 5000 has decommissioned it. *)
Definition kraken_retired : Gadget.t :=
  Gadget.Build agent_id "The Kraken" Decommissioned (Some 5000) 100 5000.

Definition one_gadget_retired : World :=
  {| gadgets := {[ agent_id := kraken_retired ]};
     pendingSelfDestructCodes := ∅ |}.

(** The first gadget with a code pending. *)
Definition armed : World :=
  {| gadgets := {[ agent_id := kraken ]};
     pendingSelfDestructCodes := {[ agent_id := "12345" ]} |}.


(** *** Sequences of requests *)

(** The inputs of one Create: the body, the draws of the codename loop, the
    primary key and the time of the insert. *)
Definition CreateInput : Type := gmap string JsVal * list nat * string * Z.

(** Creates handled one after the other: the replies in order and the world
    at the end; [None] when one of them has not replied. *)
Fixpoint Create_all (w : World) (reqs : list CreateInput)
    : option (list (Reply Gadget.t) * World) :=
  match reqs with
  | [] => Some ([], w)
  | (body, draws, uuid, now) :: rest =>
      '(reply, w1) ← Create w body draws uuid now;
      '(replies, w2) ← Create_all w1 rest;
      Some (reply :: replies, w2)
  end.

(** The gadgets a list of replies returned. *)
Definition created (replies : list (Reply Gadget.t)) : list Gadget.t :=
  omap (λ r, match r with Json _ g => Some g | Error _ _ => None end) replies.

(** Confirm requests for one id handled one after the other, each with its
    own supplied code. *)
Fixpoint Confirm_each (w : World) (id : string) (codes : list JsVal)
    (clk : Clock) : list (Reply string) * World :=
  match codes with
  | [] => ([], w)
  | c :: rest =>
      let '(reply, w1) := ConfirmSelfDestruct w id c clk in
      let '(replies, w2) := Confirm_each w1 id rest clk in
      (reply :: replies, w2)
  end.

(** ** The auth gate ([middleware/auth.js]) and the wiring of [app.js] *)

(** [s.split(sep)] for a separator of one character: the pieces between
    its occurrences, one more piece than occurrences. *)
Fixpoint split_at (sep : ascii) (s : string) : list string :=
  match s with
  | EmptyString => [EmptyString]
  | String c s' =>
      if Ascii.eqb c sep then EmptyString :: split_at sep s'
      else match split_at sep s' with
           | piece :: pieces => String c piece :: pieces
           | [] => [String c EmptyString]
           end
  end.

(** [pieces.join(sep)]. *)
Fixpoint join_with (sep : ascii) (pieces : list string) : string :=
  match pieces with
  | [] => EmptyString
  | [piece] => piece
  | piece :: rest => String.append piece (String sep (join_with sep rest))
  end.

(** No space in a string. *)
Fixpoint no_space (s : string) : bool :=
  match s with
  | EmptyString => true
  | String c s' => negb (Ascii.eqb c " ") && no_space s'
  end.

(** The token the gate verifies: [parts[1]] when the header splits at its
    spaces into exactly two parts of which the first is "Bearer", the
    whole header otherwise. *)
Definition bearer_token (authHeader : string) : string :=
  let parts := split_at " " authHeader in
  if (length parts =? 2)%nat
     && bool_decide (parts !! 0%nat = Some "Bearer")
  then default "undefined" (parts !! 1%nat)
  else authHeader.

(** [jwt.verify(token, secret)] at a time: the payload of a token it
    accepts, [None] when it throws.  The secret is configuration. *)
Class Jwt := { jwt_verify : string → Z → option Token }.

Section AuthGate.
Context `{Jwt}.

(** The middleware on the [Authorization] header of a request: the reply
    it sends, or the [userId] it hands to [next]. *)
Definition authMiddleware (authHeader : option string) (now : Z)
    : Reply unit + Z :=
  match authHeader with
  | None => inl (Error 401 (Text "No token provided"))
  | Some header =>
      if negb (truthy (JStr header))
      then inl (Error 401 (Text "No token provided"))
      else
        match jwt_verify (bearer_token header) now with
        | Some decoded => inr (token_id decoded)
        | None => inl (Error 401 (Text "Invalid token"))
        end
  end.

(** The code a gadget route replies with and the world it leaves, [None]
    while it has not replied. *)
Definition respond (w : World) (req : Request) : option (Z * World) :=
  match req with
  | ReqList status rand =>
      let '(reply, w') := List w status rand in Some (code_of reply, w')
  | ReqCreate body draws uuid now =>
      '(reply, w') ← Create w body draws uuid now; Some (code_of reply, w')
  | ReqUpdate id updates clk =>
      let '(reply, w') := Update w id updates clk in Some (code_of reply, w')
  | ReqDecommission id clk =>
      let '(reply, w') := Decommission w id clk in Some (code_of reply, w')
  | ReqGenerateCode id r =>
      let '(reply, w') := GenerateSelfDestructCode w id r in
      Some (code_of reply, w')
  | ReqConfirm id code clk =>
      let '(reply, w') := ConfirmSelfDestruct w id code clk in
      Some (code_of reply, w')
  end.

(** [app.use('/gadgets', authMiddleware, gadgetsRouter)]: the router runs
    only when the middleware has called [next]. *)
Definition gadgets_app (w : World) (authHeader : option string) (now : Z)
    (req : Request) : option (Z * World) :=
  match authMiddleware authHeader now with
  | inl reply => Some (code_of reply, w)
  | inr _ => respond w req
  end.
End AuthGate.

(** A stand-in for [jwt] to evaluate the gate with: one token, for user 1,
    good before 3650. *)
Definition toy_jwt : Jwt :=
  {| jwt_verify token now :=
       if String.eqb token "e30.e30.sig" && (now <? 3650)
       then Some {| token_id := 1; token_iat := 50; token_exp := 3650 |}
       else None |}.

(** The codes the [@swagger] block of each route declares. *)
Definition documented (req : Request) : list Z :=
  match req with
  | ReqList _ _ => [200; 500]
  | ReqCreate _ _ _ _ => [201; 400]
  | ReqUpdate _ _ _ => [200; 404; 400]
  | ReqDecommission _ _ => [200; 404; 400]
  | ReqGenerateCode _ _ => [200; 404; 400]
  | ReqConfirm _ _ _ => [200; 403; 404; 400]
  end.

(** A header the gate turns away at a time. *)
Definition turned_away `{Jwt} (authHeader : option string) (now : Z) : Prop :=
  authHeader = None ∨ authHeader = Some ""
  ∨ ∃ header, authHeader = Some header
              ∧ jwt_verify (bearer_token header) now = None.

(** ** More vocabulary for the properties *)

(** The timestamp is there exactly on a decommissioned gadget. *)
Definition coherent (g : Gadget.t) : Prop :=
  is_Some (Gadget.decommissionedAt g) ↔ Gadget.status g = Decommissioned.

(** The gadget a request addresses by its [:id]. *)
Definition addressed (req : Request) : option string :=
  match req with
  | ReqUpdate id _ _ | ReqDecommission id _ | ReqGenerateCode id _
  | ReqConfirm id _ _ => Some id
  | ReqList _ _ | ReqCreate _ _ _ _ => None
  end.

(** The requests whose [:id] spells the primary key [k]. *)
Definition spells (req : Request) (k : string) : Prop :=
  ∃ i, addressed req = Some i ∧ Gadget.pk_of i = Some k.

(** Requests handled one after the other; [None] when one of them has not
    replied. *)
Fixpoint handle_all (w : World) (reqs : list Request) : option World :=
  match reqs with
  | [] => Some w
  | req :: rest => w1 ← handle w req; handle_all w1 rest
  end.

(** Fourteen gadgets, one for each codename of the vocabulary. *)
Definition full_house : World :=
  {| gadgets :=
       list_to_map
         (imap (λ i noun,
                  let pk := "00000000-0000-4000-8000-0000000000"
                            +:+ Number_toString (Z.of_nat i + 10) in
                  (pk, Gadget.Build pk ("The " +:+ noun) Available None 100 100))
            nouns);
     pendingSelfDestructCodes := ∅ |}.

(** A PATCH that decommissions with a date of its own. *)
Definition backdated (d : Z) : Gadget.Values :=
  {| Gadget.v_id := None; Gadget.v_name := None;
     Gadget.v_status := Some (Some "Decommissioned");
     Gadget.v_decommissionedAt := Some (Some d);
     Gadget.v_createdAt := None; Gadget.v_updatedAt := None |}.

(** The id of the sample gadget in upper case, and a world where a code is
    pending under that text. *)
Definition agent_id_upper : string := "3F2B8C1E-9A4D-4C7B-8E21-0A1B2C3D4E5F".

Definition armed_upper : World :=
  {| gadgets := {[ agent_id := kraken ]};
     pendingSelfDestructCodes := {[ agent_id_upper := "12345" ]} |}.

(** * Properties *)

(** ** Decimal rendering *)

Lemma to_digits_more fuel n acc :
  n / 10 ≠ 0 →
  to_digits (S fuel) n acc
  = to_digits fuel (n / 10) (String (digit_char (n mod 10)) acc).
Proof.
  intros Hn. simpl. destruct (Z.eqb_spec (n / 10) 0); [contradiction | done].
Qed.

Lemma to_digits_last fuel n acc :
  n / 10 = 0 →
  to_digits (S fuel) n acc = String (digit_char (n mod 10)) acc.
Proof. intros Hn. simpl. by rewrite Hn. Qed.

Lemma digit_char_is_digit d : 0 ≤ d ≤ 9 → is_digit (digit_char d) = true.
Proof.
  intros Hd.
  assert (d = 0 ∨ d = 1 ∨ d = 2 ∨ d = 3 ∨ d = 4 ∨ d = 5 ∨ d = 6 ∨ d = 7
          ∨ d = 8 ∨ d = 9) as Hcases by lia.
  repeat (destruct Hcases as [-> | Hcases]; [reflexivity |]).
  by subst.
Qed.

Lemma digit_char_nonzero d : 1 ≤ d ≤ 9 → Ascii.eqb (digit_char d) "0" = false.
Proof.
  intros Hd.
  assert (d = 1 ∨ d = 2 ∨ d = 3 ∨ d = 4 ∨ d = 5 ∨ d = 6 ∨ d = 7
          ∨ d = 8 ∨ d = 9) as Hcases by lia.
  repeat (destruct Hcases as [-> | Hcases]; [reflexivity |]).
  by subst.
Qed.

(** The five digits of a number between 10000 and 99999. *)
Lemma Number_toString_5 n :
  10000 ≤ n ≤ 99999 →
  Number_toString n
  = String (digit_char (n / 10000))
      (String (digit_char (n / 1000 mod 10))
         (String (digit_char (n / 100 mod 10))
            (String (digit_char (n / 10 mod 10))
               (String (digit_char (n mod 10)) EmptyString)))).
Proof.
  intros Hn. unfold Number_toString.
  assert (4 ≤ Z.log2 n) as Hlog.
  { change 4 with (Z.log2 16). apply Z.log2_le_mono. lia. }
  destruct (Z.to_nat (Z.log2 n)) as [|[|[|[|fuel]]]] eqn:Hfuel; try lia.
  assert (n / 10 / 10 = n / 100) as H2 by (by rewrite Z.div_div by lia).
  assert (n / 100 / 10 = n / 1000) as H3 by (by rewrite Z.div_div by lia).
  assert (n / 1000 / 10 = n / 10000) as H4 by (by rewrite Z.div_div by lia).
  assert (n / 10000 / 10 = 0) as H5.
  { rewrite Z.div_div by lia. apply Z.div_small. lia. }
  assert (1000 ≤ n / 10) as Hd1 by (apply Z.div_le_lower_bound; lia).
  assert (100 ≤ n / 100) as Hd2 by (apply Z.div_le_lower_bound; lia).
  assert (10 ≤ n / 1000) as Hd3 by (apply Z.div_le_lower_bound; lia).
  assert (1 ≤ n / 10000 < 10) as Hd4.
  { split; [apply Z.div_le_lower_bound | apply Z.div_lt_upper_bound]; lia. }
  rewrite to_digits_more by lia.
  rewrite to_digits_more by lia. rewrite H2.
  rewrite to_digits_more by lia. rewrite H3.
  rewrite to_digits_more by lia. rewrite H4.
  rewrite to_digits_last by lia.
  by rewrite (Z.mod_small (n / 10000) 10) by lia.
Qed.

Lemma Number_toString_is_code n :
  10000 ≤ n ≤ 99999 → is_code (Number_toString n) = true.
Proof.
  intros Hn. rewrite Number_toString_5 by done. unfold is_code.
  assert (1 ≤ n / 10000 < 10) as H1.
  { split; [apply Z.div_le_lower_bound | apply Z.div_lt_upper_bound]; lia. }
  rewrite !digit_char_is_digit, digit_char_nonzero; try done; try lia.
  all: pose proof (Z.mod_pos_bound n 10); try lia.
  all: try (pose proof (Z.mod_pos_bound (n / 10) 10); lia).
  all: try (pose proof (Z.mod_pos_bound (n / 100) 10); lia).
  all: try (pose proof (Z.mod_pos_bound (n / 1000) 10); lia).
Qed.

(** ** Reading [pendingSelfDestructCodes] at a gadget id *)

Lemma uuid_not_inherited id : is_uuid id = true → inherited id = false.
Proof.
  intros Hid. destruct (inherited id) eqn:Hin; [| done].
  unfold inherited in Hin. apply existsb_exists in Hin as (k & Hk & Heq).
  apply String.eqb_eq in Heq. subst k.
  simpl in Hk. repeat (destruct Hk as [<- | Hk]; [discriminate Hid |]).
  destruct Hk.
Qed.

Lemma uuid_not_proto id : is_uuid id = true → String.eqb id "__proto__" = false.
Proof.
  intros Hid. destruct (String.eqb_spec id "__proto__") as [-> |]; [| done].
  discriminate Hid.
Qed.

Lemma is_code_truthy c : is_code c = true → truthy (JStr c) = true.
Proof. by destruct c. Qed.

Lemma js_get_own o k c : o !! k = Some c → js_get o k = JStr c.
Proof. unfold js_get. by intros ->. Qed.

Lemma js_get_none o k :
  is_uuid k = true → o !! k = None → js_get o k = JUndefined.
Proof.
  intros Hk Hnone. unfold js_get. by rewrite Hnone, uuid_not_inherited.
Qed.

Lemma js_set_uuid o k c : is_uuid k = true → js_set o k c = <[k := c]> o.
Proof. intros Hk. unfold js_set. by rewrite uuid_not_proto. Qed.

Lemma strict_eq_JStr v s : strict_eq v (JStr s) = true ↔ v = JStr s.
Proof.
  destruct v; simpl; try (split; [discriminate | discriminate]).
  rewrite String.eqb_eq. split; [by intros -> | by intros [= ->]].
Qed.

(** ** The text of a primary key *)

Lemma skip_hyphen_hex i c t :
  is_hex c = true → skip_hyphen i (String c t) = String c t.
Proof.
  destruct c as [[] [] [] [] [] [] [] []]; try reflexivity; discriminate.
Qed.

Lemma uuid_in_hex c t :
  is_hex c = true →
  uuid_in (String c t)
  = '(digits, rest) ← uuid_bytes 16 0 (String c t);
    if String.eqb rest "" then Some digits else None.
Proof.
  destruct c as [[] [] [] [] [] [] [] []]; try reflexivity; discriminate.
Qed.

Lemma skip_hyphen_at i t :
  (Nat.odd i && (i <? 15))%nat = true → skip_hyphen i (String "-" t) = t.
Proof. unfold skip_hyphen. by intros ->. Qed.

Lemma hex_run_S n s r :
  hex_run (S n) s = Some r →
  ∃ c s', s = String c s' ∧ is_hex c = true ∧ hex_run n s' = Some r.
Proof.
  destruct s as [| c s']; simpl; [done |].
  destruct (is_hex c) eqn:Hc; [| done]. eauto.
Qed.

Lemma uuid_groups_cons n m rest s :
  uuid_groups (n :: m :: rest) s = true →
  ∃ s', hex_run n s = Some (String "-" s') ∧ uuid_groups (m :: rest) s' = true.
Proof.
  change (uuid_groups (n :: m :: rest) s)
    with (match hex_run n s with
          | Some (String "-"%char s') => uuid_groups (m :: rest) s'
          | _ => false
          end).
  destruct (hex_run n s) as [r |]; [| discriminate].
  destruct r as [| c s']; [discriminate |].
  destruct c as [[] [] [] [] [] [] [] []]; try discriminate. eauto.
Qed.

Lemma uuid_groups_last n s :
  uuid_groups [n] s = true → hex_run n s = Some "".
Proof.
  cbn [uuid_groups]. destruct (hex_run n s) as [r |]; [| discriminate].
  by destruct r as [| [[] [] [] [] [] [] [] []] ?].
Qed.

Lemma uuid_bytes_step left index a b s :
  is_hex a = true → is_hex b = true →
  uuid_bytes (S left) index (String a (String b s))
  = '(digits, rest) ← uuid_bytes left (S index) (skip_hyphen index s);
    Some (String (lower_hex a) (String (lower_hex b) digits), rest).
Proof. intros Ha Hb. cbn [uuid_bytes]. by rewrite Ha, Hb. Qed.

Ltac hex_chars H :=
  repeat (let c := fresh "c" in let Hc := fresh "Hc" in
          apply hex_run_S in H as (c & ? & -> & Hc & H));
  injection H as ->.

(** A text in the documented format is read as a uuid. *)
Lemma is_uuid_pk s : is_uuid s = true → is_Some (Gadget.pk_of s).
Proof.
  unfold is_uuid. intros H.
  apply uuid_groups_cons in H as (s1 & H1 & H). hex_chars H1.
  apply uuid_groups_cons in H as (s2 & H2 & H). hex_chars H2.
  apply uuid_groups_cons in H as (s3 & H3 & H). hex_chars H3.
  apply uuid_groups_cons in H as (s4 & H4 & H). hex_chars H4.
  apply uuid_groups_last in H. hex_chars H.
  unfold Gadget.pk_of. rewrite uuid_in_hex by done.
  repeat (rewrite uuid_bytes_step by assumption;
          first [rewrite skip_hyphen_hex by assumption
                | rewrite skip_hyphen_at by reflexivity
                | change (skip_hyphen 15 "") with ""]).
  simpl. eauto.
Qed.

(** ** The hook and the ORM's update *)

Module GadgetFacts.
Import Gadget.

Lemma same_data_refl a : same_data a a.
Proof. by repeat split. Qed.

Lemma same_data_stamp u a : same_data (with_updatedAt u a) a.
Proof. by repeat split. Qed.

(** The hook writes [decommissionedAt] and nothing else. *)
Lemma beforeUpdate_frame now g :
  id (beforeUpdate now g) = id g ∧ name (beforeUpdate now g) = name g
  ∧ status (beforeUpdate now g) = status g
  ∧ createdAt (beforeUpdate now g) = createdAt g
  ∧ updatedAt (beforeUpdate now g) = updatedAt g.
Proof.
  unfold beforeUpdate.
  destruct (bool_decide _ && negb _); [done |].
  by destruct (negb _).
Qed.

(** What the hook leaves in [decommissionedAt]. *)
Lemma beforeUpdate_decommissionedAt now g :
  decommissionedAt (beforeUpdate now g)
  = if decide (status g = Decommissioned)
    then match decommissionedAt g with
         | Some d => Some d
         | None => Some now
         end
    else None.
Proof.
  unfold beforeUpdate. destruct (decide (status g = Decommissioned)) as [Hs | Hs].
  - rewrite (bool_decide_eq_true_2 _ Hs). simpl.
    destruct (decommissionedAt g) as [d |] eqn:Hd.
    + rewrite bool_decide_eq_true_2 by eauto. simpl. done.
    + rewrite bool_decide_eq_false_2 by (intros [? [=]]). simpl. done.
  - rewrite (bool_decide_eq_false_2 _ Hs). simpl. done.
Qed.

(** [set] keeps the primary key and both timestamps, whatever the values
    say about them. *)
Lemma set_frame json values g g1 :
  set json values g = Some g1 →
  id g1 = id g ∧ createdAt g1 = createdAt g ∧ updatedAt g1 = updatedAt g.
Proof.
  unfold set. intros Hset.
  destruct (match v_name values with None => _ | Some x => x end);
    simpl in Hset; [| done].
  destruct (match v_status values with None => _ | Some x => _ end);
    simpl in Hset; [| done].
  by injection Hset as <-.
Qed.

(** The attributes [set] leaves in the instance. *)
Lemma set_Some json values g g1 :
  set json values g = Some g1 →
  match v_name values with
  | None => name g1 = name g
  | Some x => x = Some (name g1)
  end
  ∧ match v_status values with
    | None => status g1 = status g
    | Some x => x ≫= parse_status = Some (status g1)
    end
  ∧ decommissionedAt g1
    = match v_decommissionedAt values with
      | None => decommissionedAt g
      | Some x => if falsy_date json values then None else x
      end.
Proof.
  unfold set. intros Hset.
  destruct (v_name values) as [[n |] |]; simpl in Hset; try done;
    destruct (v_status values) as [x |]; simpl in Hset;
    try (destruct (x ≫= parse_status) eqn:Hx; simpl in Hset; [| done]);
    by injection Hset as <-.
Qed.

(** Without a timestamp in the values, or with a null one, the instance
    reaches the hook with the timestamp the lemma names. *)
Lemma set_carried json values g g1 :
  set json values g = Some g1 →
  match v_decommissionedAt values with
  | None => decommissionedAt g
  | Some x => x
  end = None →
  decommissionedAt g1 = None.
Proof.
  intros (_ & _ & ->)%set_Some Hnone.
  destruct (v_decommissionedAt values) as [x |]; [| done].
  by destruct (falsy_date json values).
Qed.

(** A successful [update], read at the row of the instance: the row holds
    what [set] and the hook made of the attributes, and every other row is
    as before. *)
Lemma update_Some json hook_now save_now values g rows instance rows' :
  rows !! id g = Some g →
  update json hook_now save_now values g rows = Some (instance, rows') →
  ∃ g1 row,
    set json values g = Some g1
    ∧ rows' !! id g = Some row
    ∧ same_data row (beforeUpdate hook_now g1)
    ∧ same_data instance (beforeUpdate hook_now g1)
    ∧ (updatedAt row = updatedAt g ∨ updatedAt row = save_now)
    ∧ ∀ k, k ≠ id g → rows' !! k = rows !! k.
Proof.
  intros Hrow. unfold update.
  destruct (set json values g) as [g1 |] eqn:Hset; simpl; [| done].
  intros Hupd. exists g1.
  assert (same_data
            (if mentions_attribute values
             then with_updatedAt save_now (beforeUpdate hook_now g1)
             else beforeUpdate hook_now g1) (beforeUpdate hook_now g1)) as Hinst.
  { destruct (mentions_attribute values);
      [apply same_data_stamp | apply same_data_refl]. }
  destruct (bool_decide (g1 = g) && bool_decide (beforeUpdate hook_now g1 = g1)
            && negb (falsy_date json values)) eqn:Hsame.
  - apply andb_true_iff in Hsame as [Hsame _].
    apply andb_true_iff in Hsame as [->%bool_decide_eq_true Hh%bool_decide_eq_true].
    injection Hupd as <- <-. exists g. rewrite Hh in *.
    split_and!; auto using same_data_refl.
  - destruct (refused json values g (beforeUpdate hook_now g1) rows); [done |].
    injection Hupd as <- <-. eexists. rewrite lookup_insert_eq.
    split_and!; [done | done | done | done | |].
    + destruct (mentions_attribute values); simpl; [by right |].
      left. destruct (beforeUpdate_frame hook_now g1) as (_ & _ & _ & _ & ->).
      by apply set_frame in Hset as (_ & _ & ->).
    + intros k Hk. by rewrite lookup_insert_ne.
Qed.

(** An [update] cannot throw once [set] has accepted the values and the
    database has nothing to refuse. *)
Lemma update_accepted json hook_now save_now values g g1 rows :
  set json values g = Some g1 →
  refused json values g (beforeUpdate hook_now g1) rows = false →
  is_Some (update json hook_now save_now values g rows).
Proof.
  intros Hset Href. unfold update. rewrite Hset. simpl. rewrite Href.
  destruct (bool_decide (g1 = g) && _ && _); eauto.
Qed.

(** The database refuses nothing of a write that leaves the name alone and
    takes its timestamp from a route or from the hook. *)
Lemma refused_false json hook_now values g g1 rows :
  name g1 = name g →
  json = false ∨ v_decommissionedAt values = None →
  refused json values g (beforeUpdate hook_now g1) rows = false.
Proof.
  intros Hname Hdate. unfold refused.
  destruct (beforeUpdate_frame hook_now g1) as (_ & -> & _).
  rewrite Hname. rewrite (bool_decide_eq_false_2 (name g ≠ name g)) by tauto.
  simpl. destruct Hdate as [-> | ->]; [done |].
  by rewrite andb_false_r.
Qed.

(** An [update] by a route that leaves the name alone cannot throw once
    [set] has accepted the values. *)
Lemma update_total hook_now save_now values g g1 rows :
  set false values g = Some g1 → name g1 = name g →
  is_Some (update false hook_now save_now values g rows).
Proof.
  intros Hset Hname. eapply update_accepted; [done |].
  apply refused_false; auto.
Qed.
End GadgetFacts.

(** ** Finding a gadget by its primary key *)

Section PrimaryKey.
Import Gadget.

(** The text of a primary key in the table finds its row. *)
Lemma findByPk_hit w id g :
  World_ok w → gadgets w !! id = Some g →
  findByPk (gadgets w) id = Some (Some g).
Proof.
  intros Hok Hg. unfold findByPk.
  rewrite (canonical w Hok id g Hg). simpl. by rewrite Hg.
Qed.

(** The text of a primary key that is not in the table finds nothing. *)
Lemma findByPk_miss w id :
  pk_of id = Some id → gadgets w !! id = None →
  findByPk (gadgets w) id = Some None.
Proof. intros Hpk Hg. unfold findByPk. rewrite Hpk. simpl. by rewrite Hg. Qed.

(** A row that is found sits under the primary key the text spells. *)
Lemma findByPk_Some rows i g :
  findByPk rows i = Some (Some g) →
  ∃ k, pk_of i = Some k ∧ rows !! k = Some g.
Proof.
  unfold findByPk. destruct (pk_of i) as [k |]; simpl; [| done].
  intros [= Hg]. eauto.
Qed.

(** In a world of the routes, the row found is under its own key. *)
Lemma findByPk_row w i g :
  World_ok w → findByPk (gadgets w) i = Some (Some g) →
  pk_of i = Some (id g) ∧ gadgets w !! id g = Some g.
Proof.
  intros Hok (k & Hpk & Hg)%findByPk_Some.
  by rewrite (keyed w Hok k g Hg).
Qed.

(** With an id in the documented format the query does not throw. *)
Lemma findByPk_uuid rows i :
  is_uuid i = true → is_Some (findByPk rows i).
Proof.
  intros [k Hk]%is_uuid_pk. unfold findByPk. rewrite Hk. simpl. eauto.
Qed.

(** Two texts of one primary key find the same. *)
Lemma findByPk_pk rows i k :
  pk_of i = Some k → findByPk rows i = Some (rows !! k).
Proof. unfold findByPk. by intros ->. Qed.
End PrimaryKey.


(** ** The self-destruct handshake *)

Section Handshake.
Import Gadget GadgetFacts.

(** The confirm route past its three guards: the row the [:id] spells is
    [Destroyed], the entry under the text of the [:id] is deleted. *)
Lemma Confirm_success_pk w id p g clk :
  World_ok w →
  pendingSelfDestructCodes w !! id = Some p →
  findByPk (gadgets w) id = Some (Some g) →
  ∃ w' g',
    ConfirmSelfDestruct w id (JStr p) clk
    = (Json 200 "Gadget self-destructed", w')
    ∧ gadgets w' !! Gadget.id g = Some g'
    ∧ status g' = Destroyed ∧ decommissionedAt g' = None
    ∧ Gadget.id g' = Gadget.id g ∧ name g' = name g
    ∧ createdAt g' = createdAt g
    ∧ (∀ k, k ≠ Gadget.id g → gadgets w' !! k = gadgets w !! k)
    ∧ pendingSelfDestructCodes w' = delete id (pendingSelfDestructCodes w).
Proof.
  intros Hok Hp Hfind. unfold ConfirmSelfDestruct.
  rewrite (js_get_own _ _ _ Hp).
  rewrite (is_code_truthy p) by eauto using codes_ok.
  simpl. rewrite String.eqb_refl. simpl.
  rewrite Hfind.
  destruct (findByPk_row w id g Hok Hfind) as [_ Hg].
  set (values := {| v_id := None; v_name := None;
                    v_status := Some (Some "Destroyed");
                    v_decommissionedAt := None;
                    v_createdAt := None; v_updatedAt := None |}).
  assert (set false values g
          = Some (Build (Gadget.id g) (name g) Destroyed (decommissionedAt g)
                    (createdAt g) (updatedAt g))) as Hset by reflexivity.
  destruct (update_total (at_hook clk) (at_save clk) values g _ (gadgets w) Hset)
    as [[instance rows'] Hupd]; [done |].
  rewrite Hupd.
  destruct (update_Some _ _ _ _ _ _ _ _ Hg Hupd)
    as (g1 & row & Hset' & Hrow & Hdata & _ & _ & Hframe).
  rewrite Hset in Hset'. injection Hset' as <-.
  destruct Hdata as (Hi & Hn & Hs & Hd & Hc).
  rewrite beforeUpdate_decommissionedAt in Hd.
  destruct (beforeUpdate_frame (at_hook clk)
              (Build (Gadget.id g) (name g) Destroyed (decommissionedAt g)
                 (createdAt g) (updatedAt g))) as (Hi' & Hn' & Hs' & Hc' & _).
  rewrite Hi' in Hi. rewrite Hn' in Hn. rewrite Hs' in Hs. rewrite Hc' in Hc.
  simpl in *.
  exists {| gadgets := rows';
            pendingSelfDestructCodes :=
              js_delete (pendingSelfDestructCodes w) id |}, row.
  simpl. split_and!; done.
Qed.


(** The second guard of the confirm route. *)
Lemma Confirm_wrong w id p supplied clk :
  World_ok w →
  pendingSelfDestructCodes w !! id = Some p → supplied ≠ JStr p →
  ConfirmSelfDestruct w id supplied clk
  = (Error 403 (Text "Invalid confirmation code"), w).
Proof.
  intros Hok Hp Hne. unfold ConfirmSelfDestruct.
  rewrite (js_get_own _ _ _ Hp).
  rewrite (is_code_truthy p) by eauto using codes_ok. simpl.
  destruct (strict_eq supplied (JStr p)) eqn:Heq; [| done].
  by apply strict_eq_JStr in Heq.
Qed.

(** Either the confirm route leaves the world as it is, or it is past its
    three guards. *)
Lemma Confirm_cases w id c clk :
  World_ok w →
  (ConfirmSelfDestruct w id c clk).2 = w
  ∨ ∃ p g, pendingSelfDestructCodes w !! id = Some p ∧ c = JStr p
           ∧ findByPk (gadgets w) id = Some (Some g).
Proof.
  intros Hok. unfold ConfirmSelfDestruct, js_get.
  destruct (pendingSelfDestructCodes w !! id) as [p |] eqn:Hp.
  - rewrite (is_code_truthy p) by eauto using codes_ok. simpl.
    destruct (strict_eq c (JStr p)) eqn:Heq; simpl; [| by left].
    apply strict_eq_JStr in Heq as ->.
    destruct (findByPk (gadgets w) id) as [[g |] |] eqn:Hg;
      [| by left | by left].
    right. eauto.
  - left. destruct (inherited id); simpl; [| done].
    by destruct c.
Qed.

(** C1.  The confirm route checks in this order: no pending code for the
    id, 400; a supplied code that is not exactly the pending one, 403; no
    gadget whose primary key the id spells, 404.  Past them it replies 200,
    the gadget is [Destroyed], the pending entry of the id is gone, and the
    same request again is answered 400.  With an id in the documented
    format the lookup of the gadget does not throw, so that these are all
    the cases. *)
Theorem ConfirmSelfDestruct_order (w : World) (id : string)
    (confirmationCode : JsVal) (clk : Clock) :
  World_ok w → is_uuid id = true →
  (pendingSelfDestructCodes w !! id = None →
   ConfirmSelfDestruct w id confirmationCode clk = (Error 400 not_generated, w))
  ∧ (∀ p, pendingSelfDestructCodes w !! id = Some p →
       confirmationCode ≠ JStr p →
       ConfirmSelfDestruct w id confirmationCode clk
       = (Error 403 (Text "Invalid confirmation code"), w))
  ∧ (∀ p, pendingSelfDestructCodes w !! id = Some p →
       confirmationCode = JStr p →
       findByPk (gadgets w) id = Some None →
       ConfirmSelfDestruct w id confirmationCode clk
       = (Error 404 (Text "Gadget not found"), w))
  ∧ (∀ p g, pendingSelfDestructCodes w !! id = Some p →
       confirmationCode = JStr p →
       findByPk (gadgets w) id = Some (Some g) →
       ∃ w' g',
         ConfirmSelfDestruct w id confirmationCode clk
         = (Json 200 "Gadget self-destructed", w')
         ∧ gadgets w' !! Gadget.id g = Some g' ∧ status g' = Destroyed
         ∧ pendingSelfDestructCodes w' !! id = None
         ∧ ∀ clk',
             ConfirmSelfDestruct w' id confirmationCode clk'
             = (Error 400 not_generated, w'))
  ∧ is_Some (findByPk (gadgets w) id).
Proof.
  intros Hok Hid. split_and!; [| | | | by apply findByPk_uuid].
  - intros Hnone. unfold ConfirmSelfDestruct.
    by rewrite (js_get_none _ _ Hid Hnone).
  - intros p Hp Hne. by apply (Confirm_wrong w id p).
  - intros p Hp -> Hg. unfold ConfirmSelfDestruct.
    rewrite (js_get_own _ _ _ Hp).
    rewrite (is_code_truthy p) by eauto using codes_ok. simpl.
    rewrite String.eqb_refl. simpl. by rewrite Hg.
  - intros p g Hp -> Hg.
    destruct (Confirm_success_pk w id p g clk Hok Hp Hg)
      as (w' & g' & Hrun & Hg' & Hs & _ & _ & _ & _ & _ & Hpend).
    exists w', g'. split_and!; try done.
    + rewrite Hpend. apply lookup_delete_eq.
    + intros clk'. unfold ConfirmSelfDestruct.
      rewrite js_get_none; [done | done |].
      rewrite Hpend. apply lookup_delete_eq.
Qed.
End Handshake.

(** ** Decommission *)

Section Decommission.
Import Gadget GadgetFacts.

(** A write through [update] keeps every row under its own key. *)
Lemma update_keyed json hook_now save_now values g rows instance rows' :
  (∀ k r, rows !! k = Some r → id r = k) →
  rows !! id g = Some g →
  update json hook_now save_now values g rows = Some (instance, rows') →
  ∀ k r, rows' !! k = Some r → id r = k.
Proof.
  intros Hkeyed Hg Hupd k r Hr.
  destruct (update_Some _ _ _ _ _ _ _ _ Hg Hupd)
    as (g1 & row & Hset & Hrow & (Hi & _) & _ & _ & Hframe).
  destruct (decide (k = id g)) as [-> | Hne].
  - rewrite Hrow in Hr. injection Hr as <-. rewrite Hi.
    destruct (beforeUpdate_frame hook_now g1) as (-> & _).
    by apply set_frame in Hset as (-> & _).
  - rewrite Hframe in Hr by done. eauto.
Qed.

(** A write through [update] adds no key to the table. *)
Lemma update_canonical json hook_now save_now values g rows instance rows' :
  (∀ k r, rows !! k = Some r → pk_of k = Some k) →
  rows !! id g = Some g →
  update json hook_now save_now values g rows = Some (instance, rows') →
  ∀ k r, rows' !! k = Some r → pk_of k = Some k.
Proof.
  intros Hcanon Hg Hupd k r Hr.
  destruct (update_Some _ _ _ _ _ _ _ _ Hg Hupd)
    as (g1 & row & Hset & Hrow & _ & _ & _ & Hframe).
  destruct (decide (k = id g)) as [-> | Hne]; [eauto |].
  rewrite Hframe in Hr by done. eauto.
Qed.

(** A write through [update] keeps the world one of the routes. *)
Lemma update_ok json hook_now save_now values g w instance rows' pending :
  World_ok w →
  gadgets w !! id g = Some g →
  update json hook_now save_now values g (gadgets w) = Some (instance, rows') →
  (∀ k c, pending !! k = Some c → is_code c = true) →
  World_ok {| gadgets := rows'; pendingSelfDestructCodes := pending |}.
Proof.
  intros Hok Hg Hupd Hpend. split; simpl; [| | done].
  - eapply update_keyed; eauto using keyed.
  - eapply update_canonical; eauto using canonical.
Qed.

(** The delete route on a gadget that is found. *)
Lemma Decommission_success_pk w id g clk :
  World_ok w →
  findByPk (gadgets w) id = Some (Some g) →
  ∃ w' g',
    Decommission w id clk = (Json 200 "Gadget decommissioned", w')
    ∧ World_ok w'
    ∧ gadgets w' !! Gadget.id g = Some g'
    ∧ status g' = Decommissioned
    ∧ decommissionedAt g' = Some (at_route clk)
    ∧ Gadget.id g' = Gadget.id g ∧ name g' = name g
    ∧ createdAt g' = createdAt g
    ∧ (∀ k, k ≠ Gadget.id g → gadgets w' !! k = gadgets w !! k)
    ∧ pendingSelfDestructCodes w' = pendingSelfDestructCodes w.
Proof.
  intros Hok Hfind. unfold Decommission. rewrite Hfind.
  destruct (findByPk_row w id g Hok Hfind) as [_ Hg].
  set (values := {| v_id := None; v_name := None;
                    v_status := Some (Some "Decommissioned");
                    v_decommissionedAt := Some (Some (at_route clk));
                    v_createdAt := None; v_updatedAt := None |}).
  assert (set false values g
          = Some (Build (Gadget.id g) (name g) Decommissioned
                    (Some (at_route clk)) (createdAt g) (updatedAt g)))
    as Hset by reflexivity.
  destruct (update_total (at_hook clk) (at_save clk) values g _ (gadgets w) Hset)
    as [[instance rows'] Hupd]; [done |].
  rewrite Hupd.
  destruct (update_Some _ _ _ _ _ _ _ _ Hg Hupd)
    as (g1 & row & Hset' & Hrow & Hdata & _ & _ & Hframe).
  rewrite Hset in Hset'. injection Hset' as <-.
  destruct Hdata as (Hi & Hn & Hs & Hd & Hc).
  rewrite beforeUpdate_decommissionedAt in Hd.
  destruct (beforeUpdate_frame (at_hook clk)
              (Build (Gadget.id g) (name g) Decommissioned
                 (Some (at_route clk)) (createdAt g) (updatedAt g)))
    as (Hi' & Hn' & Hs' & Hc' & _).
  rewrite Hi' in Hi. rewrite Hn' in Hn. rewrite Hs' in Hs. rewrite Hc' in Hc.
  simpl in Hi, Hn, Hs, Hd, Hc.
  exists {| gadgets := rows';
            pendingSelfDestructCodes := pendingSelfDestructCodes w |}, row.
  split_and!; simpl; try done.
  eapply update_ok; eauto using codes_ok.
Qed.

(** The same, at the text of the primary key itself. *)
Lemma Decommission_success w id g clk :
  World_ok w →
  gadgets w !! id = Some g →
  ∃ w' g',
    Decommission w id clk = (Json 200 "Gadget decommissioned", w')
    ∧ World_ok w'
    ∧ gadgets w' !! id = Some g'
    ∧ status g' = Decommissioned
    ∧ decommissionedAt g' = Some (at_route clk)
    ∧ Gadget.id g' = id ∧ name g' = name g ∧ createdAt g' = createdAt g
    ∧ (∀ k, k ≠ id → gadgets w' !! k = gadgets w !! k)
    ∧ pendingSelfDestructCodes w' = pendingSelfDestructCodes w.
Proof.
  intros Hok Hg.
  pose proof (Decommission_success_pk w id g clk Hok (findByPk_hit w id g Hok Hg))
    as Hrun.
  by rewrite (keyed w Hok id g Hg) in Hrun.
Qed.

(** C2, as the code has it.  Two Decommission calls in sequence both
    succeed and leave the gadget [Decommissioned] with a timestamp; each
    call stamps the time of its own [new Date()], so after the second call
    the timestamp is that of the second call. *)
Theorem Decommission_twice (w : World) (id : string) (g : Gadget.t)
    (clk1 clk2 : Clock) :
  World_ok w → gadgets w !! id = Some g →
  ∃ w1 w2 g1 g2,
    Decommission w id clk1 = (Json 200 "Gadget decommissioned", w1)
    ∧ Decommission w1 id clk2 = (Json 200 "Gadget decommissioned", w2)
    ∧ gadgets w1 !! id = Some g1 ∧ gadgets w2 !! id = Some g2
    ∧ status g1 = Decommissioned
    ∧ decommissionedAt g1 = Some (at_route clk1)
    ∧ status g2 = Decommissioned
    ∧ decommissionedAt g2 = Some (at_route clk2).
Proof.
  intros Hok Hg.
  destruct (Decommission_success w id g clk1 Hok Hg)
    as (w1 & g1 & Hrun1 & Hok1 & Hg1 & Hs1 & Hd1 & _).
  destruct (Decommission_success w1 id g1 clk2 Hok1 Hg1)
    as (w2 & g2 & Hrun2 & _ & Hg2 & Hs2 & Hd2 & _).
  exists w1, w2, g1, g2. split_and!; done.
Qed.
End Decommission.

Lemma one_gadget_ok : World_ok one_gadget.
Proof.
  split; simpl.
  - intros k g [<- <-]%lookup_singleton_Some. reflexivity.
  - intros k g [<- <-]%lookup_singleton_Some. reflexivity.
  - intros k c Hc. by rewrite lookup_empty in Hc.
Qed.

Lemma Decommission_twice_witness :
  ∃ w1 w2 g1 g2,
    Decommission one_gadget agent_id (at_time 1000)
    = (Json 200 "Gadget decommissioned", w1)
    ∧ Decommission w1 agent_id (at_time 2000)
      = (Json 200 "Gadget decommissioned", w2)
    ∧ gadgets w1 !! agent_id = Some g1 ∧ gadgets w2 !! agent_id = Some g2
    ∧ Gadget.status g1 = Decommissioned
    ∧ Gadget.decommissionedAt g1 = Some 1000
    ∧ Gadget.status g2 = Decommissioned
    ∧ Gadget.decommissionedAt g2 = Some 2000.
Proof.
  apply (Decommission_twice one_gadget agent_id kraken
           (at_time 1000) (at_time 2000)).
  - exact one_gadget_ok.
  - reflexivity.
Defined.

(** C2, as the claim states it, fails: the second Decommission replaces
    the timestamp the first one set. *)
Lemma Decommission_timestamp_counterexample :
  let w1 := (Decommission one_gadget agent_id (at_time 1000)).2 in
  let w2 := (Decommission w1 agent_id (at_time 2000)).2 in
  Gadget.decommissionedAt <$> gadgets w1 !! agent_id = Some (Some 1000)
  ∧ Gadget.decommissionedAt <$> gadgets w2 !! agent_id = Some (Some 2000)
  ∧ Gadget.decommissionedAt <$> gadgets w2 !! agent_id
    ≠ Gadget.decommissionedAt <$> gadgets w1 !! agent_id.
Proof. vm_compute. split_and!; [done | done | discriminate]. Qed.

(** ** Update *)

Section Update.
Import Gadget GadgetFacts.

(** The patch route on a gadget that is found, when it replies 200. *)
Lemma Update_success_pk w id g updates clk reply w' :
  World_ok w →
  findByPk (gadgets w) id = Some (Some g) →
  Update w id updates clk = (Json 200 reply, w') →
  ∃ g1 g',
    set true updates g = Some g1
    ∧ gadgets w' !! Gadget.id g = Some g'
    ∧ same_data g' (beforeUpdate (at_hook clk) g1)
    ∧ same_data reply (beforeUpdate (at_hook clk) g1)
    ∧ (updatedAt g' = updatedAt g ∨ updatedAt g' = at_save clk)
    ∧ (∀ k, k ≠ Gadget.id g → gadgets w' !! k = gadgets w !! k)
    ∧ pendingSelfDestructCodes w' = pendingSelfDestructCodes w
    ∧ World_ok w'.
Proof.
  intros Hok Hfind. unfold Update. rewrite Hfind.
  destruct (findByPk_row w id g Hok Hfind) as [_ Hg].
  destruct (update _ _ _ _ _ _) as [[instance rows'] |] eqn:Hupd; [| done].
  intros [= <- <-].
  destruct (update_Some _ _ _ _ _ _ _ _ Hg Hupd)
    as (g1 & row & Hset & Hrow & Hdata & Hinst & Hstamp & Hframe).
  exists g1, row. simpl. split_and!; try done.
  eapply update_ok; eauto using codes_ok.
Qed.

(** The same, at the text of the primary key itself. *)
Lemma Update_success w id g updates clk reply w' :
  World_ok w →
  gadgets w !! id = Some g →
  Update w id updates clk = (Json 200 reply, w') →
  ∃ g1 g',
    set true updates g = Some g1
    ∧ gadgets w' !! id = Some g'
    ∧ same_data g' (beforeUpdate (at_hook clk) g1)
    ∧ same_data reply (beforeUpdate (at_hook clk) g1)
    ∧ (updatedAt g' = updatedAt g ∨ updatedAt g' = at_save clk)
    ∧ (∀ k, k ≠ id → gadgets w' !! k = gadgets w !! k)
    ∧ pendingSelfDestructCodes w' = pendingSelfDestructCodes w.
Proof.
  intros Hok Hg Hrun.
  destruct (Update_success_pk w id g updates clk reply w' Hok
              (findByPk_hit w id g Hok Hg) Hrun)
    as (g1 & g' & Hfacts).
  exists g1, g'. rewrite (keyed w Hok id g Hg) in Hfacts. tauto.
Qed.

(** C3.  After an Update that succeeds, the stored gadget and the one
    replied obey the timestamp rule of the hook: with the resulting status
    [Decommissioned] the timestamp is set, and it is the hook's reading of
    the clock when the instance carried none (neither stored nor supplied
    in the body); with any other resulting status it is null. *)
Theorem Update_timestamp_rule (w : World) (id : string) (g : Gadget.t)
    (updates : Values) (clk : Clock) (reply : Gadget.t) (w' : World) :
  World_ok w → gadgets w !! id = Some g →
  Update w id updates clk = (Json 200 reply, w') →
  let carried :=
    match v_decommissionedAt updates with
    | None => decommissionedAt g
    | Some x => x
    end in
  ∃ g', gadgets w' !! id = Some g'
    ∧ status reply = status g'
    ∧ decommissionedAt reply = decommissionedAt g'
    ∧ (status g' = Decommissioned → is_Some (decommissionedAt g'))
    ∧ (status g' = Decommissioned → carried = None →
       decommissionedAt g' = Some (at_hook clk))
    ∧ (status g' ≠ Decommissioned → decommissionedAt g' = None).
Proof.
  intros Hok Hg Hrun carried.
  destruct (Update_success _ _ _ _ _ _ _ Hok Hg Hrun)
    as (g1 & g' & Hset & Hg' & Hdata & Hreply & _).
  destruct Hdata as (_ & _ & Hs & Hd & _).
  destruct Hreply as (_ & _ & Hs' & Hd' & _).
  pose proof (set_carried _ _ _ _ Hset) as Hcarried.
  fold carried in Hcarried.
  rewrite beforeUpdate_decommissionedAt in Hd, Hd'.
  destruct (beforeUpdate_frame (at_hook clk) g1) as (_ & _ & Hs1 & _).
  rewrite Hs1 in Hs, Hs'.
  exists g'. split_and!; try congruence.
  - intros Hdec. rewrite Hd. rewrite <- Hs.
    rewrite decide_True by done. destruct (decommissionedAt g1); eauto.
  - intros Hdec Hnone. rewrite Hd. rewrite <- Hs.
    rewrite decide_True by done. by rewrite (Hcarried Hnone).
  - intros Hdec. rewrite Hd. rewrite <- Hs.
    by rewrite decide_False by done.
Qed.
End Update.

Lemma Update_timestamp_rule_witness :
  ∃ g', gadgets one_gadget_retired !! agent_id = Some g'
    ∧ Gadget.status kraken_retired = Gadget.status g'
    ∧ Gadget.decommissionedAt kraken_retired = Gadget.decommissionedAt g'
    ∧ (Gadget.status g' = Decommissioned →
       is_Some (Gadget.decommissionedAt g'))
    ∧ (Gadget.status g' = Decommissioned → @None Z = None →
       Gadget.decommissionedAt g' = Some 5000)
    ∧ (Gadget.status g' ≠ Decommissioned →
       Gadget.decommissionedAt g' = None).
Proof.
  apply (Update_timestamp_rule one_gadget agent_id kraken
           (status_only Decommissioned) (at_time 5000)
           kraken_retired one_gadget_retired).
  - exact one_gadget_ok.
  - reflexivity.
  - vm_compute. reflexivity.
Defined.

Lemma armed_ok : World_ok armed.
Proof.
  split; simpl.
  - intros k g [<- <-]%lookup_singleton_Some. reflexivity.
  - intros k g [<- <-]%lookup_singleton_Some. reflexivity.
  - intros k c [<- <-]%lookup_singleton_Some. reflexivity.
Qed.

Lemma ConfirmSelfDestruct_order_witness :
  (pendingSelfDestructCodes armed !! agent_id = None →
   ConfirmSelfDestruct armed agent_id (JStr "12345") (at_time 9000)
   = (Error 400 not_generated, armed))
  ∧ (∀ p, pendingSelfDestructCodes armed !! agent_id = Some p →
       JStr "12345" ≠ JStr p →
       ConfirmSelfDestruct armed agent_id (JStr "12345") (at_time 9000)
       = (Error 403 (Text "Invalid confirmation code"), armed))
  ∧ (∀ p, pendingSelfDestructCodes armed !! agent_id = Some p →
       JStr "12345" = JStr p →
       Gadget.findByPk (gadgets armed) agent_id = Some None →
       ConfirmSelfDestruct armed agent_id (JStr "12345") (at_time 9000)
       = (Error 404 (Text "Gadget not found"), armed))
  ∧ (∀ p g, pendingSelfDestructCodes armed !! agent_id = Some p →
       JStr "12345" = JStr p →
       Gadget.findByPk (gadgets armed) agent_id = Some (Some g) →
       ∃ w' g',
         ConfirmSelfDestruct armed agent_id (JStr "12345") (at_time 9000)
         = (Json 200 "Gadget self-destructed", w')
         ∧ gadgets w' !! Gadget.id g = Some g' ∧ Gadget.status g' = Destroyed
         ∧ pendingSelfDestructCodes w' !! agent_id = None
         ∧ ∀ clk',
             ConfirmSelfDestruct w' agent_id (JStr "12345") clk'
             = (Error 400 not_generated, w'))
  ∧ is_Some (Gadget.findByPk (gadgets armed) agent_id).
Proof.
  apply (ConfirmSelfDestruct_order armed agent_id (JStr "12345")
           (at_time 9000)).
  - exact armed_ok.
  - reflexivity.
Defined.

(** ** What an Update leaves alone, and what leaves [Destroyed] *)

Section Frame.
Import Gadget GadgetFacts.



(** The patch route replies 200, or leaves the world as it was. *)
Lemma Update_replies w id updates clk :
  (∃ reply, (Update w id updates clk).1 = Json 200 reply)
  ∨ (Update w id updates clk).2 = w.
Proof.
  unfold Update. destruct (findByPk _ _) as [[g |] |]; [| by right | by right].
  destruct (update _ _ _ _ _ _) as [[instance rows'] |]; [| by right].
  left. by eexists.
Qed.

(** A patch does not touch the rows of other gadgets. *)
Lemma Update_other_rows w id updates clk k :
  World_ok w → pk_of id ≠ Some k →
  gadgets (Update w id updates clk).2 !! k = gadgets w !! k.
Proof.
  intros Hok Hk.
  destruct (Update_replies w id updates clk) as [[reply Hreply] | ->]; [| done].
  destruct (Update w id updates clk) as [r w'] eqn:Hrun. simpl in *. subst r.
  destruct (findByPk (gadgets w) id) as [[g |] |] eqn:Hfind.
  - destruct (Update_success_pk _ _ _ _ _ _ _ Hok Hfind Hrun)
      as (_ & _ & _ & _ & _ & _ & _ & Hframe & _).
    apply Hframe. intros ->.
    by destruct (findByPk_row w id g Hok Hfind) as [Hpk _].
  - unfold Update in Hrun. rewrite Hfind in Hrun. by injection Hrun as _ <-.
  - unfold Update in Hrun. rewrite Hfind in Hrun. by injection Hrun as _ <-.
Qed.

(** A delete replies 200 on the gadget it finds, or leaves the world as it
    was. *)
Lemma Decommission_cases w id clk :
  World_ok w →
  (Decommission w id clk).2 = w
  ∨ ∃ g, findByPk (gadgets w) id = Some (Some g).
Proof.
  intros Hok. unfold Decommission.
  destruct (findByPk _ _) as [[g |] |]; [| by left | by left].
  right. eauto.
Qed.

(** A delete does not touch the rows of other gadgets. *)
Lemma Decommission_other_rows w id clk k :
  World_ok w → pk_of id ≠ Some k →
  gadgets (Decommission w id clk).2 !! k = gadgets w !! k.
Proof.
  intros Hok Hk.
  destruct (Decommission_cases w id clk Hok) as [-> | [g Hfind]]; [done |].
  destruct (Decommission_success_pk w id g clk Hok Hfind)
    as (w1 & _ & -> & _ & _ & _ & _ & _ & _ & _ & Hframe & _).
  simpl. apply Hframe. intros ->.
  by destruct (findByPk_row w id g Hok Hfind) as [Hpk _].
Qed.

(** A confirmation does not touch the rows of other gadgets. *)
Lemma Confirm_other_rows w id c clk k :
  World_ok w → pk_of id ≠ Some k →
  gadgets (ConfirmSelfDestruct w id c clk).2 !! k = gadgets w !! k.
Proof.
  intros Hok Hk.
  destruct (Confirm_cases w id c clk Hok) as [-> | (p & g & Hp & -> & Hfind)];
    [done |].
  destruct (Confirm_success_pk w id p g clk Hok Hp Hfind)
    as (w1 & _ & -> & _ & _ & _ & _ & _ & _ & Hframe & _).
  simpl. apply Hframe. intros ->.
  by destruct (findByPk_row w id g Hok Hfind) as [Hpk _].
Qed.

(** C7, as the code has it.  Whatever the body of an Update says, about
    the primary key and the timestamps as well, the gadget stays under its
    id with its creation time; its name and its status change only when the
    body carries them; [updatedAt] is as before or the time of the write;
    no other gadget and no pending code changes. *)
Theorem Update_frame (w : World) (id : string) (g : Gadget.t)
    (updates : Values) (clk : Clock) :
  World_ok w → gadgets w !! id = Some g →
  let w' := (Update w id updates clk).2 in
  ∃ g', gadgets w' !! id = Some g'
    ∧ Gadget.id g' = Gadget.id g
    ∧ createdAt g' = createdAt g
    ∧ (updatedAt g' = updatedAt g ∨ updatedAt g' = at_save clk)
    ∧ (v_name updates = None → name g' = name g)
    ∧ (v_status updates = None → status g' = status g)
    ∧ (∀ k, k ≠ id → gadgets w' !! k = gadgets w !! k)
    ∧ pendingSelfDestructCodes w' = pendingSelfDestructCodes w.
Proof.
  intros Hok Hg w'. subst w'.
  destruct (Update_replies w id updates clk) as [[reply Hreply] | Hsame].
  - destruct (Update w id updates clk) as [r w'] eqn:Hrun. simpl in *.
    subst r.
    destruct (Update_success _ _ _ _ _ _ _ Hok Hg Hrun)
      as (g1 & g' & Hset & Hg' & Hdata & _ & Hstamp & Hframe & Hpend).
    destruct Hdata as (Hi & Hn & Hs & _ & Hc).
    destruct (beforeUpdate_frame (at_hook clk) g1) as (Hi1 & Hn1 & Hs1 & Hc1 & _).
    destruct (set_frame _ _ _ _ Hset) as (Hi2 & Hc2 & _).
    destruct (set_Some _ _ _ _ Hset) as (Hn2 & Hs2 & _).
    exists g'. split_and!; try done; try congruence.
    + intros Hnone. rewrite Hnone in Hn2. congruence.
    + intros Hnone. rewrite Hnone in Hs2. congruence.
  - rewrite Hsame. exists g. split_and!; auto.
Qed.

End Frame.

Section Terminal.
Import Gadget GadgetFacts.

End Terminal.




Lemma Update_frame_witness :
  let w' := (Update one_gadget agent_id (status_and_keys Deployed)
               (at_time 5000)).2 in
  ∃ g', gadgets w' !! agent_id = Some g'
    ∧ Gadget.id g' = agent_id
    ∧ Gadget.createdAt g' = 100
    ∧ (Gadget.updatedAt g' = 100 ∨ Gadget.updatedAt g' = 5000)
    ∧ (Gadget.v_name (status_and_keys Deployed) = None →
       Gadget.name g' = "The Kraken")
    ∧ (Gadget.v_status (status_and_keys Deployed) = None →
       Gadget.status g' = Available)
    ∧ (∀ k, k ≠ agent_id → gadgets w' !! k = gadgets one_gadget !! k)
    ∧ pendingSelfDestructCodes w' = pendingSelfDestructCodes one_gadget.
Proof.
  apply (Update_frame one_gadget agent_id kraken (status_and_keys Deployed)
           (at_time 5000)).
  - exact one_gadget_ok.
  - reflexivity.
Defined.

(** C7, as the claim states it, fails: [updatedAt] is none of name, status
    and decommission timestamp, and an Update that writes changes it. *)
Lemma Update_updatedAt_counterexample :
  Gadget.updatedAt <$> gadgets one_gadget !! agent_id = Some 100
  ∧ (Update one_gadget agent_id (status_only Deployed) (at_time 5000)).1
    = Json 200 (Gadget.Build agent_id "The Kraken" Deployed None 100 5000)
  ∧ Gadget.updatedAt
      <$> gadgets (Update one_gadget agent_id (status_only Deployed)
                     (at_time 5000)).2 !! agent_id
    = Some 5000.
Proof. vm_compute. done. Qed.

(** ** Create *)

Section Create.
Import Gadget.

Lemma findOne_name_None (rows : gmap string t) (n : string) :
  findOne_name rows n = None ↔ ∀ k r, rows !! k = Some r → name r ≠ n.
Proof.
  unfold findOne_name. rewrite fmap_None, list_find_None, Forall_forall.
  split.
  - intros Hall k r Hr. apply (Hall (k, r)). by apply elem_of_map_to_list.
  - intros Hall [k r] Hin. apply (Hall k r). by apply elem_of_map_to_list.
Qed.

Lemma findOne_name_is_Some (rows : gmap string t) (n : string) :
  is_Some (findOne_name rows n) ↔ ∃ k r, rows !! k = Some r ∧ name r = n.
Proof.
  split.
  - intros Hsome. destruct (findOne_name rows n) eqn:Hfind.
    2:{ by destruct Hsome. }
    unfold findOne_name in Hfind. apply fmap_Some in Hfind as ([i [k r]] & Hf & _).
    apply list_find_Some in Hf as (Hin%list_elem_of_lookup_2 & Hn & _).
    apply elem_of_map_to_list in Hin. eauto.
  - intros (k & r & Hr & Hn). apply not_eq_None_Some. intros Hnone.
    by apply (proj1 (findOne_name_None rows n) Hnone k r).
Qed.

(** A drawn index within the vocabulary names one of its nouns. *)
Lemma generateCodename_noun i :
  (i < length nouns)%nat →
  ∃ noun, noun ∈ nouns ∧ generateCodename i = "The " +:+ noun.
Proof.
  intros Hi. destruct (lookup_lt_is_Some_2 nouns i Hi) as [noun Hnoun].
  exists noun. split; [by eapply list_elem_of_lookup_2 |].
  unfold generateCodename. by rewrite Hnoun.
Qed.

(** The loop ends at the first draw whose codename no gadget bears. *)
Lemma generateUniqueCodename_Some rows draws n rest :
  generateUniqueCodename rows draws = Some (n, rest) →
  ∃ retried i,
    draws = (retried ++ i :: rest)%list
    ∧ n = generateCodename i
    ∧ findOne_name rows n = None
    ∧ Forall (λ j, is_Some (findOne_name rows (generateCodename j))) retried.
Proof.
  induction draws as [| j draws IH]; simpl; [done |].
  case_bool_decide as Htaken.
  - intros (retried & i & -> & Hn & Hfree & Hall)%IH.
    exists (j :: retried), i. split_and!; try done. by constructor.
  - intros [= <- <-]. exists [], j. split_and!; try done.
    by apply eq_None_not_Some.
Qed.

(** It does end when some draw is free. *)
Lemma generateUniqueCodename_ends rows draws :
  Exists (λ i, findOne_name rows (generateCodename i) = None) draws →
  is_Some (generateUniqueCodename rows draws).
Proof.
  induction 1 as [i draws Hfree | i draws _ IH]; simpl.
  - rewrite bool_decide_eq_false_2; [eauto |]. rewrite Hfree. by intros [? ?].
  - case_bool_decide; eauto.
Qed.

(** It does not when every drawn codename is taken: with the fourteen
    codenames of the vocabulary all in the table, no run of draws ends. *)
Lemma generateUniqueCodename_loops rows draws :
  Forall (λ i, is_Some (findOne_name rows (generateCodename i))) draws →
  generateUniqueCodename rows draws = None.
Proof.
  induction 1 as [| i draws Htaken _ IH]; simpl; [done |].
  by rewrite bool_decide_eq_true_2.
Qed.

(** The create route when it replies with a gadget. *)
Lemma Create_Json w body draws uuid now c g w' :
  Create w body draws uuid now = Some (Json c g, w') →
  ∃ n rest,
    generateUniqueCodename (gadgets w) draws = Some (n, rest)
    ∧ c = 201
    ∧ g = Build uuid n Available None now now
    ∧ gadgets w !! uuid = None
    ∧ gadgets w' = <[uuid := g]> (gadgets w)
    ∧ pendingSelfDestructCodes w' = pendingSelfDestructCodes w.
Proof.
  unfold Create.
  destruct (generateUniqueCodename _ _) as [[n rest] |]; simpl; [| done].
  unfold create. case_bool_decide as Hfresh; simpl; [done |].
  case_bool_decide; simpl; [done |].
  intros [= <- <- <-]. exists n, rest. split_and!; try done.
  by apply eq_None_not_Some.
Qed.

(** The create route when it replies with an error. *)
Lemma Create_Error w body draws uuid now c e w' :
  Create w body draws uuid now = Some (Error c e, w') → w' = w.
Proof.
  unfold Create.
  destruct (generateUniqueCodename _ _) as [[n rest] |]; simpl; [| done].
  destruct (create _ _ _ _ _) as [[g rows] |]; [done |].
  by intros [= _ _ <-].
Qed.

(** Creates only add rows. *)
Lemma Create_grows w body draws uuid now reply w' :
  Create w body draws uuid now = Some (reply, w') → gadgets w ⊆ gadgets w'.
Proof.
  destruct reply as [c g | c e].
  - intros (n & rest & _ & _ & _ & Hfresh & -> & _)%Create_Json.
    by apply insert_subseteq.
  - by intros ->%Create_Error.
Qed.

Lemma Create_all_grows reqs : ∀ w replies w',
  Create_all w reqs = Some (replies, w') → gadgets w ⊆ gadgets w'.
Proof.
  induction reqs as [| [[[body draws] uuid] now] reqs IH]; simpl.
  - by intros w replies w' [= _ <-].
  - intros w replies w' Hrun.
    destruct (Create w body draws uuid now) as [[reply w1] |] eqn:Hone;
      simpl in Hrun; [| done].
    destruct (Create_all w1 reqs) as [[replies' w2] |] eqn:Hrest;
      simpl in Hrun; [| done].
    injection Hrun as <- <-.
    etrans; [by eapply Create_grows | by eapply IH].
Qed.

(** Under sequential creation the gadgets returned bear names that no
    gadget of the table bore, and they are all in the table at the end. *)
Lemma Create_all_fresh reqs : ∀ w replies w',
  Create_all w reqs = Some (replies, w') →
  NoDup (name <$> created replies)
  ∧ ∀ g, g ∈ created replies →
      gadgets w' !! id g = Some g
      ∧ ∀ k r, gadgets w !! k = Some r → name r ≠ name g.
Proof.
  induction reqs as [| [[[body draws] uuid] now] reqs IH]; simpl.
  - intros w replies w' [= <- <-]. split; [constructor |].
    intros g Hin. by apply elem_of_nil in Hin.
  - intros w replies w' Hrun.
    destruct (Create w body draws uuid now) as [[reply w1] |] eqn:Hone;
      simpl in Hrun; [| done].
    destruct (Create_all w1 reqs) as [[replies' w2] |] eqn:Hrest;
      simpl in Hrun; [| done].
    injection Hrun as <- <-.
    destruct (IH _ _ _ Hrest) as (Hnodup & Hfresh).
    pose proof (Create_grows _ _ _ _ _ _ _ Hone) as Hgrow1.
    pose proof (Create_all_grows _ _ _ _ Hrest) as Hgrow2.
    destruct reply as [c g | c e]; unfold created; simpl;
      fold (created replies').
    + destruct (Create_Json _ _ _ _ _ _ _ _ Hone)
        as (n & rest & Hloop & _ & Hg & Hnew & Hrows & _).
      apply generateUniqueCodename_Some in Hloop
        as (_ & i & _ & _ & Hfree & _).
      assert (gadgets w1 !! uuid = Some g) as Hin1.
      { rewrite Hrows. apply lookup_insert_eq. }
      assert (id g = uuid ∧ name g = n) as [Hid Hn] by (by subst g).
      split.
      * constructor; [| done]. intros (g' & Heq & Hin')%list_elem_of_fmap.
        destruct (Hfresh g' Hin') as (_ & Hother).
        by apply (Hother uuid g Hin1).
      * intros g' [-> | Hin']%elem_of_cons.
        -- split; [rewrite Hid; by eapply lookup_weaken |].
           rewrite Hn. by apply findOne_name_None.
        -- destruct (Hfresh g' Hin') as (Hstored & Hother).
           split; [done |]. intros k r Hr. apply (Hother k r).
           by eapply lookup_weaken.
    + apply Create_Error in Hone as ->. split; [done |]. apply Hfresh.
Qed.
End Create.

(** ** Names stay unique *)

Section Names.
Import Gadget GadgetFacts.

(** Replacing or adding one row keeps the names unique when no other row
    bears the name of the new one. *)
Lemma names_unique_replace (rows rows' : gmap string t) pk g' :
  names_unique rows →
  rows' !! pk = Some g' →
  (∀ k, k ≠ pk → rows' !! k = rows !! k) →
  (∀ k r, k ≠ pk → rows !! k = Some r → name r ≠ name g') →
  names_unique rows'.
Proof.
  intros Huniq Hnew Hframe Hfree k1 k2 g1 g2 H1 H2 Hname.
  destruct (decide (k1 = pk)) as [-> | Hne1];
    destruct (decide (k2 = pk)) as [-> | Hne2]; [done | | |].
  - rewrite Hnew in H1. injection H1 as <-.
    rewrite Hframe in H2 by done. by destruct (Hfree k2 g2 Hne2 H2).
  - rewrite Hnew in H2. injection H2 as <-.
    rewrite Hframe in H1 by done. by destruct (Hfree k1 g1 Hne1 H1).
  - rewrite Hframe in H1, H2 by done. eauto.
Qed.

(** A row may keep its own name. *)
Lemma names_unique_own (rows : gmap string t) pk g k r :
  names_unique rows → rows !! pk = Some g →
  k ≠ pk → rows !! k = Some r → name r ≠ name g.
Proof. intros Huniq Hg Hk Hr Hname. apply Hk. by eapply Huniq. Qed.

(** A write that changes the name has passed the [unique] index. *)
Lemma update_name_checked json hook_now save_now values g g1 rows instance
    rows' :
  set json values g = Some g1 →
  update json hook_now save_now values g rows = Some (instance, rows') →
  name g1 = name g ∨ findOne_name rows (name g1) = None.
Proof.
  intros Hset. unfold update. rewrite Hset. simpl.
  destruct (bool_decide (g1 = g) && _ && _) eqn:Hsame.
  { apply andb_true_iff in Hsame as [Hsame _].
    apply andb_true_iff in Hsame as [->%bool_decide_eq_true _]. by left. }
  unfold refused.
  destruct (beforeUpdate_frame hook_now g1) as (_ & -> & _).
  destruct (decide (name g1 = name g)) as [Heq | Hne]; [by left |].
  rewrite (bool_decide_eq_true_2 _ Hne).
  destruct (findOne_name rows (name g1)) eqn:Hfind; [| by right].
  rewrite (bool_decide_eq_true_2 (is_Some (Some _))) by eauto.
  by rewrite orb_true_r.
Qed.

Lemma handle_names_unique w req w' :
  World_ok w → names_unique (gadgets w) →
  handle w req = Some w' → names_unique (gadgets w').
Proof.
  intros Hok Huniq Hrun. destruct req as
    [st rand | body draws uuid now | i updates clk | i clk | i r | i c clk];
    simpl in Hrun.
  - injection Hrun as <-. unfold List. by destruct (findAll _ _).
  - destruct (Create w body draws uuid now) as [[[c g | c e] w1] |] eqn:Hone;
      simpl in Hrun; [| | done]; injection Hrun as <-.
    + destruct (Create_Json _ _ _ _ _ _ _ _ Hone)
        as (n & rest & Hloop & _ & Hg & _ & Hrows & _).
      apply generateUniqueCodename_Some in Hloop as (_ & _ & _ & _ & Hfree & _).
      apply (names_unique_replace (gadgets w) _ uuid g Huniq).
      * rewrite Hrows. apply lookup_insert_eq.
      * intros k Hk. rewrite Hrows. by apply lookup_insert_ne.
      * intros k r _ Hr. subst g. simpl.
        by apply (proj1 (findOne_name_None _ _) Hfree k r).
    + by apply Create_Error in Hone as ->.
  - injection Hrun as <-.
    destruct (Update_replies w i updates clk) as [[reply Hreply] | ->];
      [| done].
    destruct (Update w i updates clk) as [r w1] eqn:Hone. simpl in *. subst r.
    destruct (findByPk (gadgets w) i) as [[g |] |] eqn:Hfind;
      [| unfold Update in Hone; rewrite Hfind in Hone; by injection Hone as _ <-
       | unfold Update in Hone; rewrite Hfind in Hone; by injection Hone as _ <-].
    destruct (findByPk_row w i g Hok Hfind) as [_ Hg].
    destruct (Update_success_pk _ _ _ _ _ _ _ Hok Hfind Hone)
      as (g1 & row & Hset & Hrow & (_ & Hname & _) & _ & _ & Hframe & _).
    destruct (beforeUpdate_frame (at_hook clk) g1) as (_ & Hn1 & _).
    rewrite Hn1 in Hname.
    apply (names_unique_replace (gadgets w) _ (Gadget.id g) row Huniq);
      [done | done |].
    intros k r Hk Hr. rewrite Hname.
    assert (name g1 = name g ∨ findOne_name (gadgets w) (name g1) = None)
      as [-> | Hfree].
    { unfold Update in Hone. rewrite Hfind in Hone.
      destruct (update _ _ _ _ _ _) as [[instance rows'] |] eqn:Hupd; [| done].
      by eapply update_name_checked. }
    + by eapply names_unique_own.
    + by apply (proj1 (findOne_name_None _ _) Hfree k r).
  - injection Hrun as <-.
    destruct (Decommission_cases w i clk Hok) as [-> | [g Hfind]]; [done |].
    destruct (findByPk_row w i g Hok Hfind) as [_ Hg].
    destruct (Decommission_success_pk w i g clk Hok Hfind)
      as (w1 & g' & -> & _ & Hg' & _ & _ & _ & Hname & _ & Hframe & _).
    simpl. apply (names_unique_replace (gadgets w) _ (Gadget.id g) g' Huniq);
      [done | done |].
    intros k r Hk Hr. rewrite Hname. by eapply names_unique_own.
  - injection Hrun as <-. unfold GenerateSelfDestructCode.
    by destruct (findByPk _ _) as [[g |] |].
  - injection Hrun as <-.
    destruct (Confirm_cases w i c clk Hok) as [-> | (p & g & Hp & -> & Hfind)];
      [done |].
    destruct (findByPk_row w i g Hok Hfind) as [_ Hg].
    destruct (Confirm_success_pk w i p g clk Hok Hp Hfind)
      as (w1 & g' & -> & Hg' & _ & _ & _ & Hname & _ & Hframe & _).
    simpl. apply (names_unique_replace (gadgets w) _ (Gadget.id g) g' Huniq);
      [done | done |].
    intros k r Hk Hr. rewrite Hname. by eapply names_unique_own.
Qed.
End Names.

(** ** Generating and guessing codes *)

Section Codes.
Import Gadget GadgetFacts.

(** The generate-code route when it replies with a code. *)
Lemma Generate_Json w id r c code w' :
  GenerateSelfDestructCode w id r = (Json c code, w') →
  (∃ g, findByPk (gadgets w) id = Some (Some g))
  ∧ code = Number_toString (r + 10000)
  ∧ w' = {| gadgets := gadgets w;
            pendingSelfDestructCodes :=
              js_set (pendingSelfDestructCodes w) id
                (Number_toString (r + 10000)) |}.
Proof.
  unfold GenerateSelfDestructCode.
  destruct (findByPk (gadgets w) id) as [[g |] |]; [| done | done].
  intros [= _ <- <-]. eauto.
Qed.

(** C6.  With an id in the documented format the lookup of the gadget does
    not throw, and the generate-code route replies 404 when no gadget has
    the primary key the id spells.  Otherwise it replies with the decimal
    text of an integer between 10000 and 99999, five digits, and that text
    is the pending code of the id afterwards, whatever was pending before;
    the codes of other ids and the gadgets are as before. *)
Theorem GenerateSelfDestructCode_stores (w : World) (id : string) (r : Z) :
  is_uuid id = true → 0 ≤ r < 90000 →
  is_Some (findByPk (gadgets w) id)
  ∧ (findByPk (gadgets w) id = Some None →
     GenerateSelfDestructCode w id r
     = (Error 404 (Text "Gadget not found"), w))
  ∧ (∀ g, findByPk (gadgets w) id = Some (Some g) →
     ∃ n code w',
       GenerateSelfDestructCode w id r = (Json 200 code, w')
       ∧ 10000 ≤ n ≤ 99999 ∧ code = Number_toString n
       ∧ is_code code = true
       ∧ pendingSelfDestructCodes w' !! id = Some code
       ∧ (∀ k, k ≠ id →
            pendingSelfDestructCodes w' !! k = pendingSelfDestructCodes w !! k)
       ∧ gadgets w' = gadgets w).
Proof.
  intros Hid Hr. unfold GenerateSelfDestructCode. split_and!.
  - by apply findByPk_uuid.
  - by intros ->.
  - intros g ->. eexists (r + 10000), _, _. split; [reflexivity |].
    simpl. rewrite js_set_uuid by done.
    split_and!; try done; try lia.
    + apply Number_toString_is_code. lia.
    + apply lookup_insert_eq.
    + intros k Hk. by apply lookup_insert_ne.
Qed.

(** Generating a code keeps the world well-formed. *)
Lemma Generate_ok w id r :
  World_ok w → 0 ≤ r < 90000 →
  World_ok (GenerateSelfDestructCode w id r).2.
Proof.
  intros Hok Hr. unfold GenerateSelfDestructCode.
  destruct (findByPk _ _) as [[g |] |]; [| done | done].
  split; simpl; [apply (keyed w Hok) | apply (canonical w Hok) |].
  intros k c. unfold js_set. destruct (String.eqb id "__proto__").
  - apply (codes_ok w Hok).
  - intros [[<- <-] | [_ Hc]]%lookup_insert_Some.
    + apply Number_toString_is_code. lia.
    + by eapply codes_ok.
Qed.

(** C8.  A confirm whose supplied code is not exactly the pending code of
    the id, the one the last generate-code for it replied with, is answered
    403 and leaves the world, the gadget with it, as it was. *)
Theorem Confirm_mismatch (w : World) (id : string) (supplied : JsVal)
    (clk : Clock) :
  World_ok w →
  (∀ p, pendingSelfDestructCodes w !! id = Some p → supplied ≠ JStr p →
     ConfirmSelfDestruct w id supplied clk
     = (Error 403 (Text "Invalid confirmation code"), w))
  ∧ (∀ r code w1,
       is_uuid id = true → 0 ≤ r < 90000 →
       GenerateSelfDestructCode w id r = (Json 200 code, w1) →
       supplied ≠ JStr code →
       ConfirmSelfDestruct w1 id supplied clk
       = (Error 403 (Text "Invalid confirmation code"), w1)
       ∧ gadgets w1 = gadgets w).
Proof.
  intros Hok. split; [by eauto using Confirm_wrong |].
  intros r code w1 Hid Hr Hgen Hne.
  pose proof (Generate_ok w id r Hok Hr) as Hok1. rewrite Hgen in Hok1.
  apply Generate_Json in Hgen as (_ & -> & ->). simpl.
  split; [| done]. apply (Confirm_wrong _ _ (Number_toString (r + 10000)));
    [done | | done].
  simpl. rewrite js_set_uuid by done. apply lookup_insert_eq.
Qed.

Lemma Update_pending w id updates clk :
  pendingSelfDestructCodes (Update w id updates clk).2
  = pendingSelfDestructCodes w.
Proof.
  unfold Update. destruct (findByPk _ _) as [[g |] |]; [| done | done].
  by destruct (update _ _ _ _ _ _) as [[? ?] |].
Qed.

Lemma Decommission_pending w id clk :
  pendingSelfDestructCodes (Decommission w id clk).2
  = pendingSelfDestructCodes w.
Proof.
  unfold Decommission. destruct (findByPk _ _) as [[g |] |]; [| done | done].
  by destruct (update _ _ _ _ _ _) as [[? ?] |].
Qed.

Lemma Create_pending w body draws uuid now reply w' :
  Create w body draws uuid now = Some (reply, w') →
  pendingSelfDestructCodes w' = pendingSelfDestructCodes w.
Proof.
  destruct reply as [c g | c e].
  - by intros (_ & _ & _ & _ & _ & _ & _ & ->)%Create_Json.
  - by intros ->%Create_Error.
Qed.

End Codes.

Section Consumption.
Import Gadget GadgetFacts.

(** C10.  A confirm answered 403 or 404 leaves the world, the pending code
    with it, as it was; so any number of wrong guesses is answered 403 and
    the right code still succeeds after them.  An entry of the pending map
    is removed only by a confirm with that very code whose id finds a
    gadget, and is replaced only by a generate-code for its id that finds
    one. *)
Theorem failed_confirm_keeps_code (w : World) (id : string) (clk : Clock) :
  World_ok w →
  (∀ c reply w',
     ConfirmSelfDestruct w id c clk = (reply, w') →
     code_of reply = 403 ∨ code_of reply = 404 → w' = w)
  ∧ (∀ p g guesses,
       pendingSelfDestructCodes w !! id = Some p →
       findByPk (gadgets w) id = Some (Some g) →
       Forall (λ c, c ≠ JStr p) guesses →
       ∃ w2,
         Confirm_each w id (guesses ++ [JStr p])%list clk
         = ((replicate (length guesses)
               (Error 403 (Text "Invalid confirmation code"))
             ++ [Json 200 "Gadget self-destructed"])%list, w2)
         ∧ pendingSelfDestructCodes w2 !! id = None)
  ∧ (∀ req w' p,
       handle w req = Some w' →
       pendingSelfDestructCodes w !! id = Some p →
       pendingSelfDestructCodes w' !! id ≠ Some p →
       (∃ clk' g, req = ReqConfirm id (JStr p) clk'
                  ∧ findByPk (gadgets w) id = Some (Some g)
                  ∧ pendingSelfDestructCodes w' !! id = None)
       ∨ (∃ r g, req = ReqGenerateCode id r
                 ∧ findByPk (gadgets w) id = Some (Some g)
                 ∧ pendingSelfDestructCodes w' !! id
                   = Some (Number_toString (r + 10000)))).
Proof.
  intros Hok. split_and!.
  - intros c reply w' Hrun Hcode.
    destruct (Confirm_cases w id c clk Hok) as [Hsame | (p & g & Hp & -> & Hg)].
    + rewrite Hrun in Hsame. by simpl in Hsame.
    + destruct (Confirm_success_pk w id p g clk Hok Hp Hg)
        as (w1 & g' & Hrun' & _).
      rewrite Hrun in Hrun'. injection Hrun' as -> _.
      simpl in Hcode. lia.
  - intros p g guesses Hp Hg Hwrong.
    destruct (Confirm_success_pk w id p g clk Hok Hp Hg)
      as (w2 & g' & Hrun & _ & _ & _ & _ & _ & _ & _ & Hpend).
    exists w2. split; [| rewrite Hpend; apply lookup_delete_eq].
    induction Hwrong as [| c guesses Hc _ IH]; simpl.
    + by rewrite Hrun.
    + rewrite (Confirm_wrong w id p c clk Hok Hp Hc). by rewrite IH.
  - intros req w' p Hrun Hp Hchanged. destruct req as
      [st rand | body draws uuid now | i updates clk' | i clk' | i r
      | i c clk']; simpl in Hrun.
    + injection Hrun as <-. exfalso. apply Hchanged.
      unfold List. by destruct (findAll _ _).
    + destruct (Create w body draws uuid now) as [[reply w1] |] eqn:Hone;
        simpl in Hrun; [| done].
      injection Hrun as <-. exfalso. apply Hchanged.
      by rewrite (Create_pending _ _ _ _ _ _ _ Hone).
    + injection Hrun as <-. exfalso. apply Hchanged.
      by rewrite Update_pending.
    + injection Hrun as <-. exfalso. apply Hchanged.
      by rewrite Decommission_pending.
    + injection Hrun as <-. right.
      destruct (GenerateSelfDestructCode w i r) as [[c code | c e] w1] eqn:Hgen.
      * apply Generate_Json in Hgen as ([g Hg] & -> & ->). simpl in *.
        unfold js_set in *. destruct (String.eqb i "__proto__"); [done |].
        destruct (decide (i = id)) as [-> | Hne].
        -- exists r, g. by rewrite lookup_insert_eq.
        -- by rewrite lookup_insert_ne in Hchanged.
      * exfalso. apply Hchanged. unfold GenerateSelfDestructCode in Hgen.
        destruct (findByPk _ _) as [[g |] |]; [done | |];
          by injection Hgen as _ _ <-.
    + injection Hrun as <-. left.
      destruct (Confirm_cases w i c clk' Hok)
        as [Hsame | (p' & g & Hp' & -> & Hg)].
      { by rewrite Hsame in Hchanged. }
      destruct (Confirm_success_pk w i p' g clk' Hok Hp' Hg)
        as (w1 & g' & Hrun & _ & _ & _ & _ & _ & _ & _ & Hpend).
      rewrite Hrun in *. simpl in *. rewrite Hpend in *.
      destruct (decide (i = id)) as [-> | Hne].
      * rewrite Hp in Hp'. injection Hp' as <-.
        exists clk', g. rewrite lookup_delete_eq. eauto.
      * by rewrite lookup_delete_ne in Hchanged.
Qed.
End Consumption.

Lemma GenerateSelfDestructCode_stores_witness :
  is_Some (Gadget.findByPk (gadgets armed) agent_id)
  ∧ (Gadget.findByPk (gadgets armed) agent_id = Some None →
     GenerateSelfDestructCode armed agent_id 44321
     = (Error 404 (Text "Gadget not found"), armed))
  ∧ (∀ g, Gadget.findByPk (gadgets armed) agent_id = Some (Some g) →
     ∃ n code w',
       GenerateSelfDestructCode armed agent_id 44321 = (Json 200 code, w')
       ∧ 10000 ≤ n ≤ 99999 ∧ code = Number_toString n
       ∧ is_code code = true
       ∧ pendingSelfDestructCodes w' !! agent_id = Some code
       ∧ (∀ k, k ≠ agent_id →
            pendingSelfDestructCodes w' !! k
            = pendingSelfDestructCodes armed !! k)
       ∧ gadgets w' = gadgets armed).
Proof.
  apply (GenerateSelfDestructCode_stores armed agent_id 44321).
  - reflexivity.
  - lia.
Defined.

(** The code is overwritten: "12345" was pending, "54321" is afterwards. *)
Example Generate_overwrites :
  pendingSelfDestructCodes armed !! agent_id = Some "12345"
  ∧ GenerateSelfDestructCode armed agent_id 44321
    = (Json 200 "54321",
       {| gadgets := {[ agent_id := kraken ]};
          pendingSelfDestructCodes := <[ agent_id := "54321" ]>
                                        {[ agent_id := "12345" ]} |}).
Proof. split; reflexivity. Qed.

Lemma Confirm_mismatch_witness :
  (∀ p, pendingSelfDestructCodes armed !! agent_id = Some p →
     JNum 12345 ≠ JStr p →
     ConfirmSelfDestruct armed agent_id (JNum 12345) (at_time 9000)
     = (Error 403 (Text "Invalid confirmation code"), armed))
  ∧ (∀ r code w1,
       is_uuid agent_id = true → 0 ≤ r < 90000 →
       GenerateSelfDestructCode armed agent_id r = (Json 200 code, w1) →
       JNum 12345 ≠ JStr code →
       ConfirmSelfDestruct w1 agent_id (JNum 12345) (at_time 9000)
       = (Error 403 (Text "Invalid confirmation code"), w1)
       ∧ gadgets w1 = gadgets armed).
Proof.
  apply (Confirm_mismatch armed agent_id (JNum 12345) (at_time 9000)).
  exact armed_ok.
Defined.

Lemma failed_confirm_keeps_code_witness :
  ∃ w2,
    Confirm_each armed agent_id
      [JStr "00000"; JNum 12345; JUndefined; JStr "12345"] (at_time 9000)
    = ([Error 403 (Text "Invalid confirmation code");
        Error 403 (Text "Invalid confirmation code");
        Error 403 (Text "Invalid confirmation code");
        Json 200 "Gadget self-destructed"], w2)
    ∧ pendingSelfDestructCodes w2 !! agent_id = None.
Proof.
  destruct (failed_confirm_keeps_code armed agent_id (at_time 9000) armed_ok)
    as (_ & Hguess & _).
  apply (Hguess "12345" kraken [JStr "00000"; JNum 12345; JUndefined]).
  - reflexivity.
  - reflexivity.
  - repeat constructor; discriminate.
Defined.

(** ** Credentials *)

Section Credentials.
Context `{Bcrypt}.

(** C9.  After a Register that succeeds, the row of the username holds the
    [bcrypt] hash of the password supplied and not the password itself; a
    later Login for that username succeeds exactly when [bcrypt] matches
    the password it is given against that stored hash, and it does for the
    password registered. *)
Theorem Register_stores_hash (users users' : gmap string User.t)
    (username password salt : string) (pk : Z) :
  BcryptLaws _ →
  Register users username password salt pk = (Json 201 "User created", users') →
  ∃ user,
    users' !! username = Some user
    ∧ User.password user = bcrypt_hash salt password
    ∧ User.password user ≠ password
    ∧ (∀ supplied now,
         (∃ token, Login users' username supplied now = Json 200 token)
         ↔ bcrypt_compare supplied (User.password user) = true)
    ∧ (∀ now, ∃ token, Login users' username password now = Json 200 token).
Proof.
  intros Hlaws. unfold Register, User.create.
  case_bool_decide as Htaken; [done |].
  intros [= <-].
  eexists. rewrite lookup_insert_eq. split; [reflexivity |]. simpl.
  assert (∀ supplied now,
            (∃ token,
               Login (<[username := User.Build pk username
                                      (bcrypt_hash salt password)]> users)
                 username supplied now = Json 200 token)
            ↔ bcrypt_compare supplied (bcrypt_hash salt password) = true)
    as Hlogin.
  { intros supplied now. unfold Login, User.findOne_username.
    rewrite lookup_insert_eq. simpl.
    destruct (bcrypt_compare supplied _); simpl.
    - split; [done |]. intros _. by eexists.
    - split; [| done]. by intros [token [=]]. }
  split_and!; try done.
  - apply (hash_not_plaintext Hlaws).
  - intros now. apply Hlogin. apply (compare_own_hash Hlaws).
Qed.
End Credentials.

Lemma toy_bcrypt_laws : BcryptLaws toy_bcrypt.
Proof.
  split; simpl.
  - intros _ plaintext Heq. apply (f_equal String.length) in Heq.
    change ("$2b$" +:+ plaintext)
      with (String "$" (String "2" (String "b" (String "$" plaintext)))) in Heq.
    simpl in Heq. lia.
  - intros _ plaintext. apply String.eqb_refl.
Qed.

Lemma Register_stores_hash_witness :
  ∃ user : User.t,
    ({[ "agent007" := User.Build 1 "agent007" "$2b$secret" ]}
       : gmap string User.t) !! "agent007" = Some user
    ∧ User.password user = "$2b$secret"
    ∧ User.password user ≠ "secret"
    ∧ (∀ supplied now,
         (∃ token,
            @Login toy_bcrypt
              {[ "agent007" := User.Build 1 "agent007" "$2b$secret" ]}
              "agent007" supplied now = Json 200 token)
         ↔ String.eqb (User.password user) ("$2b$" +:+ supplied) = true)
    ∧ (∀ now, ∃ token,
         @Login toy_bcrypt
           {[ "agent007" := User.Build 1 "agent007" "$2b$secret" ]}
           "agent007" "secret" now = Json 200 token).
Proof.
  apply (@Register_stores_hash toy_bcrypt ∅
           {[ "agent007" := User.Build 1 "agent007" "$2b$secret" ]}
           "agent007" "secret" "salt" 1).
  - exact toy_bcrypt_laws.
  - reflexivity.
Defined.

(** The scenario of the spec: register, log in with the password, log in
    with another one. *)
Example Login_scenario :
  let users := (@Register toy_bcrypt ∅ "agent007" "secret" "salt" 1).2 in
  (@Register toy_bcrypt ∅ "agent007" "secret" "salt" 1).1
  = Json 201 "User created"
  ∧ (@Register toy_bcrypt users "agent007" "other" "salt" 2).1
    = Error 400 Thrown
  ∧ @Login toy_bcrypt users "agent007" "secret" 50
    = Json 200 {| token_id := 1; token_iat := 50; token_exp := 3650 |}
  ∧ @Login toy_bcrypt users "agent007" "wrong" 50
    = Error 401 (Text "Invalid credentials")
  ∧ @Login toy_bcrypt users "nobody" "secret" 50
    = Error 401 (Text "Invalid credentials").
Proof. vm_compute. done. Qed.

(** ** Every world reached is well-formed *)

Section Reachable.
Import Gadget GadgetFacts.

Lemma initial_ok : World_ok initial.
Proof. split; simpl; intros k x Hx; by rewrite lookup_empty in Hx. Qed.

Lemma handle_ok w req w' :
  World_ok w → Request_ok req → handle w req = Some w' → World_ok w'.
Proof.
  intros Hok Hreq Hrun. destruct req as
    [st rand | body draws uuid now | i updates clk | i clk | i r | i c clk];
    simpl in Hrun.
  - injection Hrun as <-. unfold List. by destruct (findAll _ _).
  - destruct (Create w body draws uuid now) as [[[c g | c e] w1] |] eqn:Hone;
      simpl in Hrun; [| | done]; injection Hrun as <-.
    + destruct (Create_Json _ _ _ _ _ _ _ _ Hone)
        as (n & rest & _ & _ & Hg & _ & Hrows & Hpend).
      destruct Hreq as [_ Hpk].
      split.
      * intros k r. rewrite Hrows.
        intros [[<- <-] | [_ Hr]]%lookup_insert_Some; [by subst g |].
        by eapply keyed.
      * intros k r. rewrite Hrows.
        intros [[<- <-] | [_ Hr]]%lookup_insert_Some; [done |].
        by eapply canonical.
      * rewrite Hpend. apply (codes_ok w Hok).
    + by apply Create_Error in Hone as ->.
  - injection Hrun as <-.
    destruct (Update_replies w i updates clk) as [[reply Hreply] | ->]; [| done].
    destruct (Update w i updates clk) as [r' w1] eqn:Hupd. simpl in *. subst r'.
    destruct (findByPk (gadgets w) i) as [[g |] |] eqn:Hfind;
      [| unfold Update in Hupd; rewrite Hfind in Hupd; by injection Hupd as _ <-
       | unfold Update in Hupd; rewrite Hfind in Hupd; by injection Hupd as _ <-].
    by destruct (Update_success_pk _ _ _ _ _ _ _ Hok Hfind Hupd)
      as (g1 & g' & _ & _ & _ & _ & _ & _ & _ & ?).
  - injection Hrun as <-.
    destruct (Decommission_cases w i clk Hok) as [-> | [g Hfind]]; [done |].
    by destruct (Decommission_success_pk w i g clk Hok Hfind)
      as (w1 & _ & -> & ? & _).
  - injection Hrun as <-. by apply Generate_ok.
  - injection Hrun as <-.
    destruct (Confirm_cases w i c clk Hok) as [-> | (p & g & Hp & -> & Hfind)];
      [done |].
    destruct (findByPk_row w i g Hok Hfind) as [_ Hg].
    destruct (Confirm_success_pk w i p g clk Hok Hp Hfind)
      as (w1 & g' & -> & Hg' & _ & _ & Hid & _ & _ & Hframe & Hpend).
    simpl. split.
    + intros k r Hr. destruct (decide (k = Gadget.id g)) as [-> | Hne].
      * rewrite Hg' in Hr. by injection Hr as <-.
      * rewrite Hframe in Hr by done. by eapply keyed.
    + intros k r Hr. destruct (decide (k = Gadget.id g)) as [-> | Hne].
      * by eapply canonical.
      * rewrite Hframe in Hr by done. by eapply canonical.
    + intros k code. rewrite Hpend.
      intros [_ Hcode]%lookup_delete_Some. by eapply codes_ok.
Qed.

Lemma reachable_ok w : reachable w → World_ok w.
Proof. induction 1; eauto using initial_ok, handle_ok. Qed.

Lemma reachable_names_unique w : reachable w → names_unique (gadgets w).
Proof.
  induction 1 as [| w req w' Hreach IH Hreq Hrun].
  - intros k1 k2 g1 g2 H1. simpl in H1. by rewrite lookup_empty in H1.
  - eapply handle_names_unique; eauto using reachable_ok.
Qed.
End Reachable.

(** ** Codenames *)

Section CreateClaim.
Import Gadget.

(** C5.  Create does not read the body.  When it replies with a gadget the
    codename is "The <Noun>" for a noun of the vocabulary, it is the first
    one drawn that no gadget of the table bears, and the gadget is a new
    row with status [Available].  It does reply with a gadget when the
    primary key is fresh and some draw is free.  Under sequential creation
    the gadgets returned bear pairwise different names, and in no world the
    process reaches do two gadgets bear the same name. *)
Theorem Create_unique_codename (w : World) (body : gmap string JsVal)
    (draws : list nat) (uuid : string) (now : Z) :
  Forall (λ i, (i < length nouns)%nat) draws →
  (∀ body', Create w body' draws uuid now = Create w body draws uuid now)
  ∧ (∀ c g w',
       Create w body draws uuid now = Some (Json c g, w') →
       c = 201
       ∧ (∃ noun, noun ∈ nouns ∧ name g = "The " +:+ noun)
       ∧ (∃ retried i rest,
            draws = (retried ++ i :: rest)%list
            ∧ name g = generateCodename i
            ∧ Forall (λ j, ∃ k r, gadgets w !! k = Some r
                                  ∧ name r = generateCodename j) retried)
       ∧ (∀ k r, gadgets w !! k = Some r → name r ≠ name g)
       ∧ status g = Available
       ∧ gadgets w !! id g = None
       ∧ gadgets w' = <[id g := g]> (gadgets w))
  ∧ (gadgets w !! uuid = None →
     Exists (λ i, ∀ k r, gadgets w !! k = Some r
                         → name r ≠ generateCodename i) draws →
     ∃ g w', Create w body draws uuid now = Some (Json 201 g, w'))
  ∧ (∀ reqs replies w',
       Create_all w reqs = Some (replies, w') →
       NoDup (name <$> created replies)
       ∧ ∀ g, g ∈ created replies → gadgets w' !! id g = Some g)
  ∧ (reachable w → names_unique (gadgets w)).
Proof.
  intros Hdraws. split_and!.
  - done.
  - intros c g w' Hrun.
    destruct (Create_Json _ _ _ _ _ _ _ _ Hrun)
      as (n & rest & Hloop & -> & -> & Hnew & Hrows & _).
    apply generateUniqueCodename_Some in Hloop
      as (retried & i & -> & -> & Hfree & Htaken).
    simpl. split_and!; try done.
    + apply generateCodename_noun.
      rewrite Forall_app, Forall_cons in Hdraws. tauto.
    + exists retried, i, rest. split_and!; try done.
      eapply Forall_impl; [exact Htaken |].
      intros j Hj. by apply findOne_name_is_Some.
    + by apply findOne_name_None.
  - intros Hnew Hfree. unfold Create.
    destruct (generateUniqueCodename_ends (gadgets w) draws) as [[n rest] Hloop].
    { eapply Exists_impl; [exact Hfree |].
      intros i Hi. by apply findOne_name_None. }
    rewrite Hloop. simpl. unfold create.
    rewrite bool_decide_eq_false_2 by (rewrite Hnew; by intros [? ?]).
    apply generateUniqueCodename_Some in Hloop as (_ & _ & _ & _ & Hn & _).
    rewrite bool_decide_eq_false_2 by (rewrite Hn; by intros [? ?]).
    simpl. eauto.
  - intros reqs replies w' Hrun.
    destruct (Create_all_fresh _ _ _ _ Hrun) as (Hnodup & Hfresh).
    split; [done |]. intros g Hg. by apply Hfresh.
  - apply reachable_names_unique.
Qed.
End CreateClaim.

Lemma Create_unique_codename_witness :
  (∀ body', Create one_gadget body' [1; 2]%nat other_id 600
            = Create one_gadget ∅ [1; 2]%nat other_id 600)
  ∧ (∀ c g w',
       Create one_gadget ∅ [1; 2]%nat other_id 600 = Some (Json c g, w') →
       c = 201
       ∧ (∃ noun, noun ∈ nouns ∧ Gadget.name g = "The " +:+ noun)
       ∧ (∃ retried i rest,
            [1; 2]%nat = (retried ++ i :: rest)%list
            ∧ Gadget.name g = generateCodename i
            ∧ Forall (λ j, ∃ k r, gadgets one_gadget !! k = Some r
                                  ∧ Gadget.name r = generateCodename j)
                retried)
       ∧ (∀ k r, gadgets one_gadget !! k = Some r
                 → Gadget.name r ≠ Gadget.name g)
       ∧ Gadget.status g = Available
       ∧ gadgets one_gadget !! Gadget.id g = None
       ∧ gadgets w' = <[Gadget.id g := g]> (gadgets one_gadget))
  ∧ (gadgets one_gadget !! other_id = None →
     Exists (λ i, ∀ k r, gadgets one_gadget !! k = Some r
                         → Gadget.name r ≠ generateCodename i) [1; 2]%nat →
     ∃ g w', Create one_gadget ∅ [1; 2]%nat other_id 600
             = Some (Json 201 g, w'))
  ∧ (∀ reqs replies w',
       Create_all one_gadget reqs = Some (replies, w') →
       NoDup (Gadget.name <$> created replies)
       ∧ ∀ g, g ∈ created replies → gadgets w' !! Gadget.id g = Some g)
  ∧ (reachable one_gadget → names_unique (gadgets one_gadget)).
Proof.
  apply (Create_unique_codename one_gadget ∅ [1; 2]%nat other_id 600).
  repeat constructor; simpl; lia.
Defined.

(** The first draw names the Kraken, which is taken; the second one is
    used. *)
Example Create_retries :
  Create one_gadget ∅ [1; 2]%nat other_id 600
  = Some (Json 201 (Gadget.Build other_id "The Phantom" Available None 600 600),
          {| gadgets :=
               <[ other_id :=
                    Gadget.Build other_id "The Phantom" Available None 600 600 ]>
                 {[ agent_id := kraken ]};
             pendingSelfDestructCodes := ∅ |}).
Proof. reflexivity. Qed.


(** ** Ids compared as uuids

    The table is read by the value of the uuid an id spells, the object
    [pendingSelfDestructCodes] by its text: a code generated under the
    upper-case spelling of an id is pending under that spelling only, and
    destroys the gadget of the id.  A text that is no uuid makes the query
    throw. *)
Example findByPk_by_value :
  Gadget.findByPk (gadgets one_gadget) agent_id_upper = Some (Some kraken)
  ∧ Gadget.findByPk (gadgets one_gadget)
      "{3f2b8c1e9a4d-4c7b-8e21-0a1b2c3d4e5f}" = Some (Some kraken)
  ∧ Gadget.findByPk (gadgets one_gadget) other_id = Some None
  ∧ Gadget.findByPk (gadgets one_gadget) "3f2b8c1e" = None
  ∧ Decommission one_gadget "3f2b8c1e" (at_time 700)
    = (Error 400 Thrown, one_gadget)
  ∧ GenerateSelfDestructCode one_gadget agent_id_upper 2345
    = (Json 200 "12345", armed_upper)
  ∧ ConfirmSelfDestruct armed_upper agent_id (JStr "12345") (at_time 300)
    = (Error 400 not_generated, armed_upper)
  ∧ ConfirmSelfDestruct armed_upper agent_id_upper (JStr "12345") (at_time 300)
    = (Json 200 "Gadget self-destructed", destroyed_gadget).
Proof. split_and!; vm_compute; reflexivity. Qed.

(** ** Ids that are no UUID

    The theorems above take the id of a request to be the text of a UUID.
    On another text the object [pendingSelfDestructCodes] is read through
    its prototype: with nothing pending the confirm route meets the
    constructor of [Object] and answers 403. *)
Example Confirm_inherited_key :
  is_uuid "constructor" = false
  ∧ pendingSelfDestructCodes one_gadget !! "constructor" = None
  ∧ ConfirmSelfDestruct one_gadget "constructor" (JStr "12345") (at_time 9000)
    = (Error 403 (Text "Invalid confirmation code"), one_gadget).
Proof. split_and!; reflexivity. Qed.

(** ** The sample worlds are worlds of the process *)

Example one_gadget_reachable : reachable one_gadget.
Proof.
  apply (reachable_handle initial (ReqCreate ∅ [1%nat] agent_id 100));
    [constructor | | reflexivity].
  repeat constructor.
Qed.

Example armed_reachable : reachable armed.
Proof.
  apply (reachable_handle one_gadget (ReqGenerateCode agent_id 2345));
    [exact one_gadget_reachable | simpl; lia | reflexivity].
Qed.

Example destroyed_gadget_reachable : reachable destroyed_gadget.
Proof.
  apply (reachable_handle armed
           (ReqConfirm agent_id (JStr "12345") (at_time 300)));
    [exact armed_reachable | exact I | reflexivity].
Qed.

(** ** What the patch route rejects *)

(** A name another gadget bears, a status that is no label of the ENUM and
    an id without a gadget are answered 400, 400 and 404, and nothing is
    written; the gadget's own name is accepted. *)
Example Update_rejections :
  Update two_gadgets agent_id (name_only "The Viper") (at_time 700)
  = (Error 400 Thrown, two_gadgets)
  ∧ Update two_gadgets agent_id (raw_status "Lost") (at_time 700)
    = (Error 400 Thrown, two_gadgets)
  ∧ Update one_gadget other_id (status_only Deployed) (at_time 700)
    = (Error 404 (Text "Gadget not found"), one_gadget)
  ∧ code_of (Update two_gadgets agent_id (name_only "The Kraken")
               (at_time 700)).1 = 200.
Proof. split_and!; reflexivity. Qed.

(** The code of the sample world, drawn. *)
Example generateConfirmationCode_2345 : generateConfirmationCode 2345 = "12345".
Proof. reflexivity. Qed.

(** * Further properties of the code *)

(** ** The auth gate *)

Section Gate.

Lemma split_at_pieces sep s : ∃ piece pieces, split_at sep s = piece :: pieces.
Proof.
  induction s as [| c s (piece & pieces & IH)]; simpl; [by eauto |].
  destruct (Ascii.eqb c sep); [by eauto |]. rewrite IH. eauto.
Qed.

(** Splitting finds nothing to split in a string without the separator. *)
Lemma split_at_no_space t : no_space t = true → split_at " " t = [t].
Proof.
  induction t as [| c t IH]; simpl; [done |].
  intros [Hc Ht]%andb_true_iff. apply negb_true_iff in Hc. rewrite Hc.
  by rewrite IH.
Qed.

(** Joining the pieces gives the string back, and no piece holds a space. *)
Lemma join_split_at s :
  join_with " " (split_at " " s) = s
  ∧ Forall (λ piece, no_space piece = true) (split_at " " s).
Proof.
  induction s as [| c s [IHjoin IHpieces]]; simpl; [by repeat constructor |].
  destruct (split_at_pieces " " s) as (piece & pieces & Hs).
  rewrite Hs in *. destruct (Ascii.eqb_spec c " ") as [-> | Hc].
  - split; [| by constructor]. simpl in *. by rewrite IHjoin.
  - apply Forall_cons in IHpieces as [Hpiece Hpieces]. split.
    + destruct pieces; simpl in *; by rewrite <- IHjoin.
    + constructor; [| done]. simpl. rewrite Hpiece.
      by destruct (Ascii.eqb_spec c " ").
Qed.

(** X1.  The gate takes the text after "Bearer " as the token when the
    header is "Bearer", one space and a text without spaces, and the whole
    header in every other case. *)
Theorem bearer_token_forms :
  (∀ t, no_space t = true → bearer_token ("Bearer " +:+ t) = t)
  ∧ (∀ header,
       bearer_token header = header
       ∨ ∃ t, header = "Bearer " +:+ t ∧ no_space t = true
              ∧ bearer_token header = t).
Proof.
  split.
  - intros t Ht. unfold bearer_token.
    change ("Bearer " +:+ t)
      with (String "B" (String "e" (String "a" (String "r" (String "e"
              (String "r" (String " " t))))))).
    simpl. by rewrite (split_at_no_space t Ht).
  - intros header. unfold bearer_token.
    destruct (join_split_at header) as [Hjoin Hpieces].
    destruct (split_at " " header) as [| p0 [| p1 [| p2 rest]]] eqn:Hsplit;
      simpl; try by left.
    case_bool_decide as Hbearer; simpl; [| by left].
    injection Hbearer as ->. right. exists p1.
    apply Forall_cons in Hpieces as [_ [Hp1 _]%Forall_cons].
    split_and!; [| done | done]. by rewrite <- Hjoin.
Qed.

(** Headers that look like the bearer form and are not. *)
Example bearer_token_edges :
  bearer_token "Bearer abc" = "abc"
  ∧ bearer_token "abc" = "abc"
  ∧ bearer_token "bearer abc" = "bearer abc"
  ∧ bearer_token "Bearer  abc" = "Bearer  abc"
  ∧ bearer_token "Bearer abc " = "Bearer abc "
  ∧ bearer_token "Bearer " = "".
Proof. split_and!; reflexivity. Qed.

Context `{Jwt}.

(** X2.  A token without spaces, not empty, is treated alike bare and
    behind "Bearer ": the gate hands on the id [jwt.verify] decodes from
    it, and replies 401 when [jwt.verify] throws. *)
Theorem authMiddleware_forms (t : string) (now : Z) :
  no_space t = true → t ≠ "" →
  authMiddleware (Some ("Bearer " +:+ t)) now = authMiddleware (Some t) now
  ∧ authMiddleware (Some t) now
    = match jwt_verify t now with
      | Some decoded => inr (token_id decoded)
      | None => inl (Error 401 (Text "Invalid token"))
      end.
Proof.
  intros Ht Hne.
  assert (bearer_token ("Bearer " +:+ t) = t) as Hbearer.
  { unfold bearer_token.
    change ("Bearer " +:+ t)
      with (String "B" (String "e" (String "a" (String "r" (String "e"
              (String "r" (String " " t))))))).
    simpl. by rewrite (split_at_no_space t Ht). }
  assert (bearer_token t = t) as Hbare.
  { unfold bearer_token. by rewrite (split_at_no_space t Ht). }
  unfold authMiddleware. rewrite Hbearer, Hbare.
  assert (truthy (JStr t) = true) as -> by (by destruct t).
  done.
Qed.
End Gate.

Lemma authMiddleware_forms_witness :
  @authMiddleware toy_jwt (Some ("Bearer " +:+ "e30.e30.sig")) 100
  = @authMiddleware toy_jwt (Some "e30.e30.sig") 100
  ∧ @authMiddleware toy_jwt (Some "e30.e30.sig") 100
    = match @jwt_verify toy_jwt "e30.e30.sig" 100 with
      | Some decoded => inr (token_id decoded)
      | None => inl (Error 401 (Text "Invalid token"))
      end.
Proof.
  apply (@authMiddleware_forms toy_jwt "e30.e30.sig" 100).
  - reflexivity.
  - discriminate.
Defined.

(** ** The codes of the routes, and the gate in front of them *)

Section Codes_of_routes.
Import Gadget GadgetFacts.

(** The code of a reply, route by route. *)
Lemma respond_cases w req code w' :
  respond w req = Some (code, w') →
  match req with
  | ReqList _ _ => code = 200 ∨ code = 500
  | ReqCreate _ _ _ _ => code = 201 ∨ code = 400
  | ReqUpdate _ _ _ | ReqDecommission _ _ | ReqGenerateCode _ _ =>
      code = 200 ∨ code = 404 ∨ code = 400
  | ReqConfirm _ _ _ => code = 200 ∨ code = 403 ∨ code = 404 ∨ code = 400
  end.
Proof.
  destruct req as
    [st rand | body draws uuid now | i updates clk | i clk | i r | i c clk];
    simpl.
  - unfold List. destruct (findAll _ _); intros [= <- _]; simpl; auto.
  - unfold Create.
    destruct (generateUniqueCodename _ _) as [[n rest] |]; simpl; [| done].
    destruct (create _ _ _ _ _) as [[g rows] |]; intros [= <- _]; simpl; auto.
  - unfold Update.
    destruct (findByPk _ _) as [[g |] |]; try (intros [= <- _]; simpl; by auto).
    destruct (update _ _ _ _ _ _) as [[g' rows] |]; intros [= <- _]; simpl; auto.
  - unfold Decommission.
    destruct (findByPk _ _) as [[g |] |]; try (intros [= <- _]; simpl; by auto).
    destruct (update _ _ _ _ _ _) as [[g' rows] |]; intros [= <- _]; simpl; auto.
  - unfold GenerateSelfDestructCode.
    destruct (findByPk _ _) as [[g |] |]; intros [= <- _]; simpl; auto.
  - unfold ConfirmSelfDestruct. destruct (negb (truthy _)).
    { intros [= <- _]; simpl; auto. }
    destruct (negb (strict_eq _ _)).
    { intros [= <- _]; simpl; auto. }
    destruct (findByPk _ _) as [[g |] |]; try (intros [= <- _]; simpl; by auto).
    destruct (update _ _ _ _ _ _) as [[g' rows] |]; intros [= <- _]; simpl; auto.
Qed.

(** X3.  A route replies only with codes its [@swagger] block declares,
    and no route sends the 401 of the gate. *)
Theorem routes_reply_documented_codes (w w' : World) (req : Request)
    (code : Z) :
  respond w req = Some (code, w') →
  code ∈ documented req ∧ code ≠ 401.
Proof.
  intros Hrun. apply respond_cases in Hrun.
  destruct req; simpl; rewrite ?elem_of_cons; split; try tauto; lia.
Qed.
End Codes_of_routes.

Lemma routes_reply_documented_codes_witness :
  (404 : Z) ∈ documented (ReqDecommission other_id (at_time 700))
  ∧ (404 : Z) ≠ 401.
Proof.
  apply (routes_reply_documented_codes one_gadget one_gadget
           (ReqDecommission other_id (at_time 700)) 404).
  reflexivity.
Defined.

Section App.
Context `{Jwt}.

(** X4.  Behind [app.use('/gadgets', authMiddleware, gadgetsRouter)] a
    request without an [Authorization] header, with an empty one, or with a
    token [jwt.verify] rejects is answered 401 whatever route it names, and
    leaves gadgets and pending codes as they were; any other request gets
    the reply of its route, which is never 401. *)
Theorem gadgets_app_gate (w : World) (authHeader : option string) (now : Z)
    (req : Request) :
  (turned_away authHeader now →
   gadgets_app w authHeader now req = Some (401, w))
  ∧ (¬ turned_away authHeader now →
     gadgets_app w authHeader now req = respond w req
     ∧ ∀ code w', respond w req = Some (code, w') → code ≠ 401).
Proof.
  unfold turned_away, gadgets_app, authMiddleware. split.
  - intros [-> | [-> | (header & -> & Hverify)]]; [done | done |].
    destruct (truthy (JStr header)); simpl; [| done]. by rewrite Hverify.
  - intros Hin. destruct authHeader as [header |]; [| tauto].
    destruct header as [| c header]; [tauto |]. simpl.
    destruct (jwt_verify _ now) as [decoded |] eqn:Hverify.
    + split; [done |]. intros code w' Hrun -> .
      apply respond_cases in Hrun. destruct req; lia.
    + destruct Hin. right. right. eauto.
Qed.
End App.

Lemma gadgets_app_gate_witness :
  @gadgets_app toy_jwt one_gadget (Some "Bearer e30.e30.sig") 4000
    (ReqDecommission agent_id (at_time 4000))
  = Some (401, one_gadget)
  ∧ @gadgets_app toy_jwt one_gadget (Some "Bearer e30.e30.sig") 100
      (ReqDecommission agent_id (at_time 100))
    = respond one_gadget (ReqDecommission agent_id (at_time 100)).
Proof.
  split.
  - apply (@gadgets_app_gate toy_jwt one_gadget (Some "Bearer e30.e30.sig")
             4000 (ReqDecommission agent_id (at_time 4000))).
    right. right. exists "Bearer e30.e30.sig". split; reflexivity.
  - apply (@gadgets_app_gate toy_jwt one_gadget (Some "Bearer e30.e30.sig")
             100 (ReqDecommission agent_id (at_time 100))).
    intros [Hnone | [Hempty | (header & Hheader & Hverify)]];
      [discriminate | discriminate |].
    injection Hheader as <-. discriminate Hverify.
Defined.

(** ** Listing *)

Section Listing.
Import Gadget.

Lemma gadget_of_imap (f : nat → Gadget.t → Listed) (found : list Gadget.t) :
  (∀ i g, gadget (f i g) = g) → gadget <$> imap f found = found.
Proof.
  revert f. induction found as [| g found IH]; intros f Hf; [done |].
  rewrite imap_cons, fmap_cons, Hf. f_equal. apply IH. intros i g'. apply Hf.
Qed.

Lemma elem_of_rows (rows : gmap string Gadget.t) (g : Gadget.t) :
  g ∈ (map_to_list rows).*2 ↔ ∃ k, rows !! k = Some g.
Proof.
  rewrite list_elem_of_fmap. split.
  - intros ([k g'] & -> & Hin). exists k. by apply elem_of_map_to_list.
  - intros (k & Hk). exists (k, g). split; [done |].
    by apply elem_of_map_to_list.
Qed.

(** X5.  GET /gadgets with one of the four labels as [status] replies 200
    with the gadgets of that status, all of them and no other, and leaves
    the world as it was. *)
Theorem List_filter (w : World) (s : string) (st : Status) (rand : nat → Z) :
  parse_status s = Some st →
  ∃ entries,
    List w (Some s) rand = (Json 200 entries, w)
    ∧ ∀ g, g ∈ gadget <$> entries
           ↔ ∃ k, gadgets w !! k = Some g ∧ status g = st.
Proof.
  intros Hs. unfold List.
  assert (truthy (JStr s) = true) as ->.
  { destruct s; [discriminate Hs | done]. }
  unfold findAll. rewrite Hs. simpl. eexists. split; [reflexivity |].
  intros g. rewrite gadget_of_imap by done.
  rewrite list_elem_of_filter, elem_of_rows. split.
  - intros [Hst [k Hk]]. eauto.
  - intros (k & Hk & Hst). eauto.
Qed.

(** X6.  GET /gadgets without [status], or with an empty one, replies 200
    with every gadget of the table, each once; a [status] that is not empty
    and none of the four labels is answered 500. *)
Theorem List_all_or_500 (w : World) (status : option string) (rand : nat → Z) :
  World_ok w →
  (status = None ∨ status = Some "" →
   ∃ entries,
     List w status rand = (Json 200 entries, w)
     ∧ length entries = size (gadgets w)
     ∧ NoDup (Gadget.id <$> (gadget <$> entries))
     ∧ ∀ g, g ∈ gadget <$> entries ↔ ∃ k, gadgets w !! k = Some g)
  ∧ (∀ s, status = Some s → s ≠ "" → parse_status s = None →
       List w status rand = (Error 500 Thrown, w)).
Proof.
  intros Hok. split.
  - intros Hstatus.
    assert (List w status rand
            = (Json 200
                 (imap (λ i g,
                    let probability := rand i + 1 in
                    {| gadget := g;
                       successProbability :=
                         Number_toString probability +:+ "%";
                       display := Gadget.name g +:+ " - "
                                  +:+ Number_toString probability
                                  +:+ "% success probability" |})
                    (map_to_list (gadgets w)).*2), w)) as ->.
    { by destruct Hstatus as [-> | ->]. }
    eexists. split; [reflexivity |].
    rewrite gadget_of_imap by done.
    rewrite length_imap, length_fmap, length_map_to_list.
    split_and!; [done | | apply elem_of_rows].
    rewrite <- list_fmap_compose.
    assert ((Gadget.id ∘ snd) <$> map_to_list (gadgets w)
            = (map_to_list (gadgets w)).*1) as ->.
    { apply Forall_fmap_ext, Forall_forall. intros [k g] Hin. simpl.
      apply elem_of_map_to_list in Hin. by eapply keyed. }
    apply NoDup_fst_map_to_list.
  - intros s -> Hne Hparse. unfold List.
    assert (truthy (JStr s) = true) as -> by (by destruct s).
    unfold findAll. by rewrite Hparse.
Qed.

(** Each entry of the list carries one drawn probability, an integer
    from 1 to 100: [successProbability] is its decimal text and a percent
    sign, and [display] is the name of the gadget, " - ", that same text
    and " success probability". *)
Theorem List_probability (w : World) (status : option string)
    (rand : nat → Z) (entries : list Listed) (entry : Listed) :
  (∀ i, 0 ≤ rand i < 100) →
  List w status rand = (Json 200 entries, w) → entry ∈ entries →
  ∃ probability,
    1 ≤ probability ≤ 100
    ∧ successProbability entry = Number_toString probability +:+ "%"
    ∧ display entry
      = Gadget.name (gadget entry) +:+ " - " +:+ Number_toString probability
        +:+ "% success probability".
Proof.
  intros Hrand. unfold List. destruct (findAll _ _) as [found |]; [| done].
  intros [= <-] (i & g & -> & _)%elem_of_lookup_imap.
  exists (rand i + 1). split; [specialize (Hrand i); lia | done].
Qed.
End Listing.

Lemma List_filter_witness :
  ∃ entries,
    List two_gadgets (Some "Deployed") (λ _, 41) = (Json 200 entries, two_gadgets)
    ∧ ∀ g, g ∈ gadget <$> entries
           ↔ ∃ k, gadgets two_gadgets !! k = Some g
                  ∧ Gadget.status g = Deployed.
Proof.
  apply (List_filter two_gadgets "Deployed" Deployed (λ _, 41)). reflexivity.
Defined.

Lemma two_gadgets_ok : World_ok two_gadgets.
Proof.
  split; simpl.
  - intros k g [[<- <-] | [_ [<- <-]%lookup_singleton_Some]]%lookup_insert_Some;
      reflexivity.
  - intros k g [[<- <-] | [_ [<- <-]%lookup_singleton_Some]]%lookup_insert_Some;
      reflexivity.
  - intros k c Hc. by rewrite lookup_empty in Hc.
Qed.

Lemma List_all_or_500_witness :
  (Some "available" = None ∨ Some "available" = Some "" →
   ∃ entries,
     List two_gadgets (Some "available") (λ _, 41)
     = (Json 200 entries, two_gadgets)
     ∧ length entries = size (gadgets two_gadgets)
     ∧ NoDup (Gadget.id <$> (gadget <$> entries))
     ∧ ∀ g, g ∈ gadget <$> entries ↔ ∃ k, gadgets two_gadgets !! k = Some g)
  ∧ (∀ s, Some "available" = Some s → s ≠ "" → parse_status s = None →
       List two_gadgets (Some "available") (λ _, 41)
       = (Error 500 Thrown, two_gadgets)).
Proof.
  apply (List_all_or_500 two_gadgets (Some "available") (λ _, 41)).
  exact two_gadgets_ok.
Defined.

Lemma List_probability_witness :
  ∃ probability,
    1 ≤ probability ≤ 100
    ∧ "42%" = Number_toString probability +:+ "%"
    ∧ "The Kraken - 42% success probability"
      = "The Kraken" +:+ " - " +:+ Number_toString probability
        +:+ "% success probability".
Proof.
  apply (List_probability one_gadget None (λ _, 41)
           [ {| gadget := kraken; successProbability := "42%";
                display := "The Kraken - 42% success probability" |} ]
           {| gadget := kraken; successProbability := "42%";
              display := "The Kraken - 42% success probability" |}).
  - intros i. lia.
  - reflexivity.
  - apply list_elem_of_here.
Defined.

(** ** Codes and the draws they come from *)

Section Draws.
Import Gadget GadgetFacts.

Lemma digit_char_inj a b :
  0 ≤ a ≤ 9 → 0 ≤ b ≤ 9 → digit_char a = digit_char b → a = b.
Proof.
  intros Ha Hb Heq.
  assert (Z.to_nat a = Z.to_nat b) as Hnat; [| lia].
  unfold digit_char in Heq.
  apply (f_equal nat_of_ascii) in Heq.
  rewrite !nat_ascii_embedding in Heq by lia. lia.
Qed.

(** Two numbers of five digits with the same decimal text are equal. *)
Lemma Number_toString_5_inj n m :
  10000 ≤ n ≤ 99999 → 10000 ≤ m ≤ 99999 →
  Number_toString n = Number_toString m → n = m.
Proof.
  intros Hn Hm. rewrite !Number_toString_5 by done.
  intros [= H4 H3 H2 H1 H0].
  apply digit_char_inj in H4, H3, H2, H1, H0;
    Z.div_mod_to_equations; lia.
Qed.


(** X7.  The code is the draw in another form: the 90000 values
    [Math.floor(Math.random() * 90000)] can take give 90000 different
    codes, each of five digits. *)
Theorem generateConfirmationCode_inj (r1 r2 : Z) :
  0 ≤ r1 < 90000 → 0 ≤ r2 < 90000 →
  is_code (generateConfirmationCode r1) = true
  ∧ (generateConfirmationCode r1 = generateConfirmationCode r2 → r1 = r2).
Proof.
  intros Hr1 Hr2. unfold generateConfirmationCode. split.
  - apply Number_toString_is_code. lia.
  - intros Heq. apply Number_toString_5_inj in Heq; lia.
Qed.

End Draws.

Lemma generateConfirmationCode_inj_witness :
  is_code (generateConfirmationCode 2345) = true
  ∧ (generateConfirmationCode 2345 = generateConfirmationCode 44321
     → 2345 = 44321).
Proof. apply (generateConfirmationCode_inj 2345 44321); lia. Defined.


(** ** What happens to the rows of the table *)

Section Rows.
Import Gadget GadgetFacts.

Lemma coherent_hook now g1 g' :
  same_data g' (beforeUpdate now g1) → coherent g'.
Proof.
  intros (_ & _ & Hs & Hd & _). unfold coherent.
  rewrite Hs, Hd, beforeUpdate_decommissionedAt.
  destruct (beforeUpdate_frame now g1) as (_ & _ & -> & _).
  destruct (decide (status g1 = Decommissioned)) as [Hdec | Hdec].
  - split; [done |]. intros _. destruct (decommissionedAt g1); eauto.
  - split; [by intros [? [=]] | done].
Qed.

(** One request and a row that is there: it stays, under its key and with
    its creation time; it is the same row unless the id of the request
    spells its key, and the same name unless the request is a patch of it;
    when it has changed it obeys the rule of the hook. *)
Lemma handle_row w req w' k g :
  World_ok w → gadgets w !! k = Some g → handle w req = Some w' →
  ∃ g', gadgets w' !! k = Some g'
    ∧ Gadget.id g' = Gadget.id g ∧ createdAt g' = createdAt g
    ∧ (¬ spells req k → g' = g)
    ∧ (name g' ≠ name g →
       ∃ i updates clk, req = ReqUpdate i updates clk ∧ pk_of i = Some k)
    ∧ (g' = g ∨ coherent g').
Proof.
  intros Hok Hg Hrun.
  assert (∃ g', gadgets w !! k = Some g' ∧ Gadget.id g' = Gadget.id g
                ∧ createdAt g' = createdAt g
                ∧ (¬ spells req k → g' = g)
                ∧ (name g' ≠ name g →
                   ∃ i updates clk,
                     req = ReqUpdate i updates clk ∧ pk_of i = Some k)
                ∧ (g' = g ∨ coherent g')) as Hsame.
  { exists g. split_and!; auto. by intros []. }
  pose proof (keyed w Hok k g Hg) as Hid.
  destruct req as
    [st rand | body draws uuid now | i updates clk | i clk | i r | i c clk];
    simpl in Hrun.
  - injection Hrun as <-. unfold List. by destruct (findAll _ _).
  - destruct (Create w body draws uuid now) as [[[c g1 | c e] w1] |] eqn:Hone;
      simpl in Hrun; [| | done]; injection Hrun as <-.
    + destruct (Create_Json _ _ _ _ _ _ _ _ Hone)
        as (n & rest & _ & _ & _ & Hfresh & -> & _).
      rewrite lookup_insert_ne; [done |]. intros ->. congruence.
    + by apply Create_Error in Hone as ->.
  - injection Hrun as <-.
    destruct (decide (pk_of i = Some k)) as [Hpk | Hne].
    + destruct (Update_replies w i updates clk) as [[reply Hreply] | ->];
        [| done].
      destruct (Update w i updates clk) as [r' w1] eqn:Hupd.
      simpl in *. subst r'.
      pose proof (findByPk_pk (gadgets w) i k Hpk) as Hfind.
      rewrite Hg in Hfind.
      destruct (Update_success_pk _ _ _ _ _ _ _ Hok Hfind Hupd)
        as (g1 & g' & Hset & Hg' & Hdata & _).
      rewrite Hid in Hg'.
      exists g'. destruct Hdata as (Hi & Hn & Hs & Hd & Hc).
      destruct (beforeUpdate_frame (at_hook clk) g1) as (Hi1 & _ & _ & Hc1 & _).
      destruct (set_frame _ _ _ _ Hset) as (Hi2 & Hc2 & _).
      split_and!; [done | congruence | congruence | | by eauto |].
      * intros []. exists i. by split.
      * right. apply (coherent_hook (at_hook clk) g1). by repeat split.
    + rewrite (Update_other_rows w i updates clk k) by done.
      exists g. split_and!; auto. by intros [].
  - injection Hrun as <-.
    destruct (decide (pk_of i = Some k)) as [Hpk | Hne].
    + pose proof (findByPk_pk (gadgets w) i k Hpk) as Hfind.
      rewrite Hg in Hfind.
      destruct (Decommission_success_pk w i g clk Hok Hfind)
        as (w1 & g' & -> & _ & Hg' & Hs & Hd & Hi & Hn & Hc & Hframe & _).
      simpl. rewrite Hid in Hg'. exists g'.
      split_and!; [done | congruence | done | | done |].
      * intros []. exists i. by split.
      * right. unfold coherent. rewrite Hs, Hd. split; eauto.
    + rewrite (Decommission_other_rows w i clk k) by done.
      exists g. split_and!; auto. by intros [].
  - injection Hrun as <-. unfold GenerateSelfDestructCode.
    by destruct (findByPk _ _) as [[gi |] |].
  - injection Hrun as <-.
    destruct (decide (pk_of i = Some k)) as [Hpk | Hne].
    + destruct (Confirm_cases w i c clk Hok)
        as [-> | (p & gi & Hp & -> & Hgi)]; [done |].
      rewrite (findByPk_pk (gadgets w) i k Hpk), Hg in Hgi.
      injection Hgi as <-.
      pose proof (findByPk_pk (gadgets w) i k Hpk) as Hfind.
      rewrite Hg in Hfind.
      destruct (Confirm_success_pk w i p g clk Hok Hp Hfind)
        as (w1 & g' & -> & Hg' & Hs & Hd & Hi & Hn & Hc & Hframe & _).
      simpl. rewrite Hid in Hg'. exists g'.
      split_and!; [done | congruence | done | | done |].
      * intros []. exists i. by split.
      * right. unfold coherent. rewrite Hs, Hd.
        split; [by intros [? [=]] | done].
    + rewrite (Confirm_other_rows w i c clk k) by done.
      exists g. split_and!; auto. by intros [].
Qed.

(** One request and a key without a row: a row appears there only by a
    Create that drew the key, and it is a fresh [Available] gadget. *)
Lemma handle_new_row w req w' k g' :
  World_ok w → gadgets w !! k = None → handle w req = Some w' →
  gadgets w' !! k = Some g' →
  (∃ body draws now, req = ReqCreate body draws k now)
  ∧ Gadget.id g' = k ∧ status g' = Available ∧ decommissionedAt g' = None.
Proof.
  intros Hok Hnone Hrun Hnew.
  assert (∀ i g, findByPk (gadgets w) i = Some (Some g) → pk_of i ≠ Some k)
    as Hother.
  { intros i g Hfind Hpk.
    rewrite (findByPk_pk (gadgets w) i k Hpk), Hnone in Hfind. congruence. }
  destruct req as
    [st rand | body draws uuid now | i updates clk | i clk | i r | i c clk];
    simpl in Hrun.
  - injection Hrun as <-. unfold List in Hnew.
    destruct (findAll _ _); simpl in Hnew; congruence.
  - destruct (Create w body draws uuid now) as [[[c g1 | c e] w1] |] eqn:Hone;
      simpl in Hrun; [| | done]; injection Hrun as <-.
    + destruct (Create_Json _ _ _ _ _ _ _ _ Hone)
        as (n & rest & _ & _ & -> & Hfresh & Hrows & _).
      rewrite Hrows in Hnew.
      apply lookup_insert_Some in Hnew as [[<- <-] | [_ Hold]]; [| congruence].
      split_and!; eauto.
    + apply Create_Error in Hone as ->. congruence.
  - injection Hrun as <-. exfalso.
    destruct (findByPk (gadgets w) i) as [[gi |] |] eqn:Hfind.
    + rewrite (Update_other_rows w i updates clk k) in Hnew by eauto.
      congruence.
    + unfold Update in Hnew. rewrite Hfind in Hnew. simpl in Hnew. congruence.
    + unfold Update in Hnew. rewrite Hfind in Hnew. simpl in Hnew. congruence.
  - injection Hrun as <-. exfalso.
    destruct (Decommission_cases w i clk Hok) as [Hsame | [gi Hfind]].
    + rewrite Hsame in Hnew. congruence.
    + rewrite (Decommission_other_rows w i clk k) in Hnew by eauto.
      congruence.
  - injection Hrun as <-. exfalso. unfold GenerateSelfDestructCode in Hnew.
    destruct (findByPk _ _) as [[gi |] |]; simpl in Hnew; congruence.
  - injection Hrun as <-. exfalso.
    destruct (Confirm_cases w i c clk Hok) as [Hsame | (p & gi & Hp & -> & Hgi)].
    { rewrite Hsame in Hnew. congruence. }
    rewrite (Confirm_other_rows w i (JStr p) clk k) in Hnew by eauto.
    congruence.
Qed.
End Rows.

Section Table.
Import Gadget GadgetFacts.

(** X9.  In every world the process reaches, a gadget carries a
    decommission timestamp exactly when its status is [Decommissioned]. *)
Theorem reachable_coherent (w : World) (k : string) (g : Gadget.t) :
  reachable w → gadgets w !! k = Some g → coherent g.
Proof.
  intros Hreach. revert k g.
  induction Hreach as [| w req w' Hreach IH Hreq Hrun]; intros k g' Hg'.
  { simpl in Hg'. by rewrite lookup_empty in Hg'. }
  pose proof (reachable_ok w Hreach) as Hok.
  destruct (gadgets w !! k) as [g |] eqn:Hg.
  - destruct (handle_row w req w' k g Hok Hg Hrun)
      as (g'' & Hg'' & _ & _ & _ & _ & Hsame).
    rewrite Hg' in Hg''. injection Hg'' as <-.
    destruct Hsame as [-> | Hco]; eauto.
  - destruct (handle_new_row w req w' k g' Hok Hg Hrun Hg')
      as (_ & _ & Hs & Hd).
    unfold coherent. rewrite Hs, Hd. split; [by intros [? [=]] | done].
Qed.

(** X10.  No request removes a gadget or changes its id or its creation
    time: after any sequence of requests the gadget is in the table under
    the same id, created at the same time; and it bears another name only
    if one of the requests was a patch whose id spells its primary key. *)
Theorem gadgets_persist (reqs : list Request) (w w' : World) (k : string)
    (g : Gadget.t) :
  World_ok w → Forall Request_ok reqs →
  handle_all w reqs = Some w' → gadgets w !! k = Some g →
  ∃ g', gadgets w' !! k = Some g'
    ∧ Gadget.id g' = Gadget.id g ∧ createdAt g' = createdAt g
    ∧ (name g' ≠ name g →
       ∃ i updates clk,
         ReqUpdate i updates clk ∈ reqs ∧ pk_of i = Some k).
Proof.
  intros Hok Hreqs. revert w g Hok.
  induction Hreqs as [| req reqs Hreq _ IH]; intros w g Hok Hrun Hg;
    simpl in Hrun.
  - injection Hrun as <-. exists g. split_and!; done.
  - destruct (handle w req) as [w1 |] eqn:Hone; simpl in Hrun; [| done].
    destruct (handle_row w req w1 k g Hok Hg Hone)
      as (g1 & Hg1 & Hi1 & Hc1 & _ & Hn1 & _).
    destruct (IH w1 g1 (handle_ok _ _ _ Hok Hreq Hone) Hrun Hg1)
      as (g' & Hg' & Hi & Hc & Hn).
    exists g'. split_and!; [done | congruence | congruence |].
    intros Hname. destruct (decide (name g1 = name g)) as [Heq | Hne].
    + destruct Hn as (i & updates & clk & Hin & Hpk); [congruence |].
      exists i, updates, clk. split; [by right | done].
    + destruct (Hn1 Hne) as (i & updates & clk & -> & Hpk).
      exists i, updates, clk. split; [by left | done].
Qed.

(** X11.  Only a Create adds a gadget, one at a time: a request leaves the
    set of ids as it was, unless it is a Create, which may add the id it
    drew. *)
Theorem only_Create_adds (w w' : World) (req : Request) :
  World_ok w → handle w req = Some w' →
  dom (gadgets w') = dom (gadgets w)
  ∨ ∃ body draws uuid now created,
      req = ReqCreate body draws uuid now
      ∧ (uuid ∉ dom (gadgets w))
      ∧ gadgets w' !! uuid = Some created
      ∧ status created = Available
      ∧ dom (gadgets w') = {[ uuid ]} ∪ dom (gadgets w).
Proof.
  intros Hok Hrun.
  assert (∀ k, k ∈ dom (gadgets w) → k ∈ dom (gadgets w')) as Hkept.
  { intros k [g Hg]%elem_of_dom.
    destruct (handle_row w req w' k g Hok Hg Hrun) as (g' & Hg' & _).
    apply elem_of_dom. eauto. }
  assert ((∀ body draws uuid now, req ≠ ReqCreate body draws uuid now) →
          dom (gadgets w') = dom (gadgets w)) as Hother.
  { intros Hreq. apply set_eq. intros k. split; [| apply Hkept].
    intros [g' Hg']%elem_of_dom.
    destruct (gadgets w !! k) as [g |] eqn:Hg; [apply elem_of_dom; eauto |].
    destruct (handle_new_row w req w' k g' Hok Hg Hrun Hg')
      as ((body & draws & now & ->) & _).
    by destruct (Hreq body draws k now). }
  destruct req as
    [st rand | body draws uuid now | i updates clk | i clk | i r | i c clk];
    try (left; by apply Hother).
  simpl in Hrun.
  destruct (Create w body draws uuid now) as [[[c g1 | c e] w1] |] eqn:Hone;
    simpl in Hrun; [| | done]; injection Hrun as <-.
  - destruct (Create_Json _ _ _ _ _ _ _ _ Hone)
      as (n & rest & _ & _ & -> & Hfresh & Hrows & _).
    right. exists body, draws, uuid, now, (Build uuid n Available None now now).
    rewrite Hrows.
    split_and!; [done | by apply not_elem_of_dom | apply lookup_insert_eq
                 | done | apply dom_insert_L].
  - apply Create_Error in Hone as ->. by left.
Qed.

(** One request keeps a gadget findable by a text that found one. *)
Lemma handle_found w req w' i :
  World_ok w → handle w req = Some w' →
  (∃ g, findByPk (gadgets w) i = Some (Some g)) →
  ∃ g', findByPk (gadgets w') i = Some (Some g').
Proof.
  intros Hok Hrun [g (k & Hpk & Hg)%findByPk_Some].
  destruct (handle_row w req w' k g Hok Hg Hrun) as (g' & Hg' & _).
  exists g'. by rewrite (findByPk_pk _ i k Hpk), Hg'.
Qed.

(** One request keeps the pending codes among the ids that find a gadget. *)
Lemma handle_pending_found w req w' :
  World_ok w →
  (∀ k c, pendingSelfDestructCodes w !! k = Some c →
          ∃ g, findByPk (gadgets w) k = Some (Some g)) →
  handle w req = Some w' →
  ∀ k c, pendingSelfDestructCodes w' !! k = Some c →
         ∃ g, findByPk (gadgets w') k = Some (Some g).
Proof.
  intros Hok Hdom Hrun k c Hc.
  pose proof (handle_found w req w' k Hok Hrun) as Hkept.
  destruct req as
    [st rand | body draws uuid now | i updates clk | i clk | i r | i c' clk];
    simpl in Hrun.
  - injection Hrun as <-. unfold List in *. destruct (findAll _ _); eauto.
  - destruct (Create w body draws uuid now) as [[reply w1] |] eqn:Hone;
      simpl in Hrun; [| done]. injection Hrun as <-.
    rewrite (Create_pending _ _ _ _ _ _ _ Hone) in Hc. eauto.
  - injection Hrun as <-. rewrite Update_pending in Hc. eauto.
  - injection Hrun as <-. rewrite Decommission_pending in Hc. eauto.
  - injection Hrun as <-. unfold GenerateSelfDestructCode in *.
    destruct (findByPk (gadgets w) i) as [[gi |] |] eqn:Hgi; simpl in *;
      [| by eauto | by eauto].
    unfold js_set in Hc. destruct (String.eqb i "__proto__"); [eauto |].
    apply lookup_insert_Some in Hc as [[<- _] | [_ Hc]]; eauto.
  - injection Hrun as <-.
    destruct (Confirm_cases w i c' clk Hok) as [Hsame | (p & gi & Hp & -> & Hgi)].
    { rewrite Hsame in *. eauto. }
    destruct (Confirm_success_pk w i p gi clk Hok Hp Hgi)
      as (w1 & g1 & Hrun & _ & _ & _ & _ & _ & _ & _ & Hpend).
    rewrite Hrun in *. simpl in *. rewrite Hpend in Hc.
    apply lookup_delete_Some in Hc as [_ Hc]. eauto.
Qed.

(** X12.  In every world the process reaches, an id with a pending code
    spells the primary key of a gadget; so the confirm route never answers
    404 there, and the pending code always destroys that gadget. *)
Theorem pending_code_has_gadget (w : World) (id : string) :
  reachable w →
  (∀ p, pendingSelfDestructCodes w !! id = Some p →
     ∃ g, findByPk (gadgets w) id = Some (Some g)
       ∧ ∀ clk, ∃ w' g',
           ConfirmSelfDestruct w id (JStr p) clk
           = (Json 200 "Gadget self-destructed", w')
           ∧ gadgets w' !! Gadget.id g = Some g' ∧ status g' = Destroyed)
  ∧ (∀ c clk, code_of (ConfirmSelfDestruct w id c clk).1 ≠ 404).
Proof.
  intros Hreach.
  assert (∀ w, reachable w →
            ∀ k c, pendingSelfDestructCodes w !! k = Some c →
                   ∃ g, findByPk (gadgets w) k = Some (Some g)) as Hdom.
  { clear. induction 1 as [| w req w' Hreach IH Hreq Hrun].
    - intros k c Hc. simpl in Hc. by rewrite lookup_empty in Hc.
    - eapply handle_pending_found; eauto using reachable_ok. }
  pose proof (reachable_ok w Hreach) as Hok.
  split.
  - intros p Hp. destruct (Hdom w Hreach id p Hp) as [g Hg].
    exists g. split; [done |]. intros clk.
    destruct (Confirm_success_pk w id p g clk Hok Hp Hg)
      as (w' & g' & Hrun & Hg' & Hs & _).
    eauto.
  - intros c clk.
    destruct (pendingSelfDestructCodes w !! id) as [p |] eqn:Hp.
    + destruct (Hdom w Hreach id p Hp) as [g Hg].
      destruct (strict_eq c (JStr p)) eqn:Heq.
      * apply strict_eq_JStr in Heq as ->.
        destruct (Confirm_success_pk w id p g clk Hok Hp Hg)
          as (w' & g' & -> & _).
        simpl. lia.
      * rewrite (Confirm_wrong w id p c clk Hok Hp); [simpl; lia |].
        intros ->. simpl in Heq. by rewrite String.eqb_refl in Heq.
    + unfold ConfirmSelfDestruct, js_get. rewrite Hp.
      destruct (inherited id); simpl; [| lia].
      destruct c; simpl; lia.
Qed.

(** X13.  A request that addresses a gadget by an id leaves as they were
    the row of every gadget whose primary key the id does not spell, and
    the pending code of every other id. *)
Theorem addressed_frame (w w' : World) (req : Request) (id k : string) :
  World_ok w → addressed req = Some id → handle w req = Some w' →
  (pk_of id ≠ Some k → gadgets w' !! k = gadgets w !! k)
  ∧ (k ≠ id →
     pendingSelfDestructCodes w' !! k = pendingSelfDestructCodes w !! k).
Proof.
  intros Hok Haddr Hrun. destruct req as
    [st rand | body draws uuid now | i updates clk | i clk | i r | i c clk];
    simpl in Haddr, Hrun; try done; injection Haddr as ->;
    injection Hrun as <-.
  - rewrite Update_pending. split; [| done].
    intros Hk. by apply Update_other_rows.
  - rewrite Decommission_pending. split; [| done].
    intros Hk. by apply Decommission_other_rows.
  - unfold GenerateSelfDestructCode.
    destruct (findByPk _ _) as [[g |] |]; [| done | done].
    simpl. split; [done |]. intros Hk. unfold js_set.
    destruct (String.eqb id "__proto__"); [done |]. by apply lookup_insert_ne.
  - split; [intros Hk; by apply Confirm_other_rows |]. intros Hk.
    destruct (Confirm_cases w id c clk Hok) as [-> | (p & g & Hp & -> & Hg)];
      [done |].
    destruct (Confirm_success_pk w id p g clk Hok Hp Hg)
      as (w1 & g1 & -> & _ & _ & _ & _ & _ & _ & _ & Hpend).
    simpl. rewrite Hpend. by apply lookup_delete_ne.
Qed.
End Table.

Lemma reachable_coherent_witness : coherent wreck.
Proof.
  apply (reachable_coherent destroyed_gadget agent_id wreck).
  - exact destroyed_gadget_reachable.
  - reflexivity.
Defined.

Lemma gadgets_persist_witness :
  ∃ g', gadgets destroyed_gadget !! agent_id = Some g'
    ∧ Gadget.id g' = Gadget.id kraken
    ∧ Gadget.createdAt g' = Gadget.createdAt kraken
    ∧ (Gadget.name g' ≠ Gadget.name kraken →
       ∃ i updates clk,
         ReqUpdate i updates clk
         ∈ [ReqGenerateCode agent_id 2345;
            ReqConfirm agent_id (JStr "12345") (at_time 300)]
         ∧ Gadget.pk_of i = Some agent_id).
Proof.
  apply (gadgets_persist
           [ReqGenerateCode agent_id 2345;
            ReqConfirm agent_id (JStr "12345") (at_time 300)]
           one_gadget destroyed_gadget agent_id kraken).
  - exact one_gadget_ok.
  - repeat constructor; simpl; lia.
  - reflexivity.
  - reflexivity.
Defined.

Lemma only_Create_adds_witness :
  dom (gadgets one_gadget) = dom (gadgets initial)
  ∨ ∃ body draws uuid now created,
      ReqCreate ∅ [1%nat] agent_id 100 = ReqCreate body draws uuid now
      ∧ (uuid ∉ dom (gadgets initial))
      ∧ gadgets one_gadget !! uuid = Some created
      ∧ Gadget.status created = Available
      ∧ dom (gadgets one_gadget) = {[ uuid ]} ∪ dom (gadgets initial).
Proof.
  apply (only_Create_adds initial one_gadget (ReqCreate ∅ [1%nat] agent_id 100)).
  - exact initial_ok.
  - reflexivity.
Defined.

Lemma pending_code_has_gadget_witness :
  (∀ p, pendingSelfDestructCodes armed !! agent_id = Some p →
     ∃ g, Gadget.findByPk (gadgets armed) agent_id = Some (Some g)
       ∧ ∀ clk, ∃ w' g',
           ConfirmSelfDestruct armed agent_id (JStr p) clk
           = (Json 200 "Gadget self-destructed", w')
           ∧ gadgets w' !! Gadget.id g = Some g'
           ∧ Gadget.status g' = Destroyed)
  ∧ (∀ c clk, code_of (ConfirmSelfDestruct armed agent_id c clk).1 ≠ 404).
Proof.
  apply (pending_code_has_gadget armed agent_id). exact armed_reachable.
Defined.

Lemma addressed_frame_witness :
  gadgets (Decommission two_gadgets agent_id (at_time 700)).2 !! other_id
  = gadgets two_gadgets !! other_id
  ∧ pendingSelfDestructCodes (Decommission two_gadgets agent_id (at_time 700)).2
      !! other_id
    = pendingSelfDestructCodes two_gadgets !! other_id.
Proof.
  destruct (addressed_frame two_gadgets _
              (ReqDecommission agent_id (at_time 700)) agent_id other_id
              two_gadgets_ok eq_refl eq_refl) as [Hrows Hcodes].
  split; [apply Hrows | apply Hcodes]; discriminate.
Defined.

(** ** More on the patch route *)

Section Patch.
Import Gadget GadgetFacts.

(** X14.  On a gadget that is found the patch route replies 200 or 400;
    it replies 400, and nothing is written, when the body carries a null
    name, a status that is null or no label of the ENUM, or a name other
    than the gadget's own that some gadget bears. *)
Theorem Update_rejects (w : World) (id : string) (g : Gadget.t)
    (updates : Values) (clk : Clock) :
  findByPk (gadgets w) id = Some (Some g) →
  let bad_name := v_name updates = Some None in
  let bad_status :=
    ∃ x, v_status updates = Some x ∧ x ≫= parse_status = None in
  let taken :=
    ∃ n k r, v_name updates = Some (Some n) ∧ n ≠ name g
             ∧ gadgets w !! k = Some r ∧ name r = n in
  ((∃ reply w', Update w id updates clk = (Json 200 reply, w'))
   ∨ Update w id updates clk = (Error 400 Thrown, w))
  ∧ (bad_name ∨ bad_status ∨ taken →
     Update w id updates clk = (Error 400 Thrown, w)).
Proof.
  intros Hg bad_name bad_status taken. subst bad_name bad_status taken.
  unfold Update. rewrite Hg. split.
  - destruct (update _ _ _ _ _ _) as [[instance rows'] |]; eauto.
  - intros Hbad. unfold update.
    destruct (set true updates g) as [g1 |] eqn:Hset; simpl; [| done].
    destruct (set_Some _ _ _ _ Hset) as (Hn & Hs & _).
    destruct Hbad as [Hbad | [(x & Hx & Hparse) | (n & k & r & Hx & Hne & Hr & Hnr)]].
    + rewrite Hbad in Hn. discriminate Hn.
    + rewrite Hx in Hs. congruence.
    + rewrite Hx in Hn. injection Hn as ->.
      rewrite (bool_decide_eq_false_2 (g1 = g)); [| by intros ->]. simpl.
      unfold refused.
      destruct (beforeUpdate_frame (at_hook clk) g1) as (_ & -> & _).
      rewrite (bool_decide_eq_true_2 _ Hne).
      rewrite (bool_decide_eq_true_2 (is_Some _));
        [| apply findOne_name_is_Some; by eauto].
      by rewrite orb_true_r.
Qed.

(** X15.  A patch can date the decommission itself: with a number as
    timestamp in the body and [Decommissioned] as the resulting status, the
    gadget keeps the timestamp of the body, not the time of the request,
    unless the number is 0, which the hook takes for no timestamp and
    replaces by its reading of the clock; with any other resulting status
    the timestamp of the body is dropped. *)
Theorem Update_supplied_timestamp (w w' : World) (id : string) (g : Gadget.t)
    (updates : Values) (clk : Clock) (reply : Gadget.t) (d : Z) :
  World_ok w → gadgets w !! id = Some g →
  v_decommissionedAt updates = Some (Some d) →
  Update w id updates clk = (Json 200 reply, w') →
  ∃ g', gadgets w' !! id = Some g'
    ∧ (status g' = Decommissioned →
       decommissionedAt g' = Some (if decide (d = 0) then at_hook clk else d))
    ∧ (status g' ≠ Decommissioned → decommissionedAt g' = None).
Proof.
  intros Hok Hg Hd Hrun.
  destruct (Update_success _ _ _ _ _ _ _ Hok Hg Hrun)
    as (g1 & g' & Hset & Hg' & (_ & _ & Hs & Hts & _) & _).
  apply set_Some in Hset as (_ & _ & Hcarried). rewrite Hd in Hcarried.
  unfold falsy_date in Hcarried. rewrite Hd in Hcarried. simpl in Hcarried.
  rewrite beforeUpdate_decommissionedAt, Hcarried in Hts.
  destruct (beforeUpdate_frame (at_hook clk) g1) as (_ & _ & Hs1 & _).
  rewrite Hs1 in Hs. exists g'. split; [done |]. rewrite Hts, Hs.
  split; intros Hst.
  - rewrite decide_True by done. destruct (decide (d = 0)) as [-> | Hne].
    + by rewrite bool_decide_eq_true_2.
    + rewrite bool_decide_eq_false_2; [done |]. by intros [= ->].
  - by rewrite decide_False.
Qed.
End Patch.

Lemma Update_rejects_witness :
  let bad_name := Gadget.v_name (name_only "The Viper") = Some None in
  let bad_status :=
    ∃ x, Gadget.v_status (name_only "The Viper") = Some x
         ∧ x ≫= parse_status = None in
  let taken :=
    ∃ n k r, Gadget.v_name (name_only "The Viper") = Some (Some n)
             ∧ n ≠ Gadget.name kraken
             ∧ gadgets two_gadgets !! k = Some r ∧ Gadget.name r = n in
  ((∃ reply w',
      Update two_gadgets agent_id (name_only "The Viper") (at_time 700)
      = (Json 200 reply, w'))
   ∨ Update two_gadgets agent_id (name_only "The Viper") (at_time 700)
     = (Error 400 Thrown, two_gadgets))
  ∧ (bad_name ∨ bad_status ∨ taken →
     Update two_gadgets agent_id (name_only "The Viper") (at_time 700)
     = (Error 400 Thrown, two_gadgets)).
Proof.
  apply (Update_rejects two_gadgets agent_id kraken
           (name_only "The Viper") (at_time 700)).
  reflexivity.
Defined.

Lemma Update_supplied_timestamp_witness :
  ∃ g',
    gadgets (Update one_gadget agent_id (backdated 42) (at_time 5000)).2
      !! agent_id = Some g'
    ∧ (Gadget.status g' = Decommissioned →
       Gadget.decommissionedAt g'
       = Some (if decide (42 = 0) then 5000 else 42))
    ∧ (Gadget.status g' ≠ Decommissioned → Gadget.decommissionedAt g' = None).
Proof.
  apply (Update_supplied_timestamp one_gadget _ agent_id kraken (backdated 42)
           (at_time 5000)
           (Gadget.Build agent_id "The Kraken" Decommissioned (Some 42) 100 5000)
           42).
  - exact one_gadget_ok.
  - reflexivity.
  - reflexivity.
  - reflexivity.
Defined.

(** A 0 as timestamp is replaced by the time of the hook; a number the
    column does not take is refused, as is a name of 256 characters. *)
Example Update_timestamp_edges :
  Update one_gadget agent_id (backdated 0) (at_time 5000)
  = (Json 200 (Gadget.Build agent_id "The Kraken" Decommissioned (Some 5000)
                 100 5000),
     {| gadgets :=
          {[ agent_id := Gadget.Build agent_id "The Kraken" Decommissioned
                           (Some 5000) 100 5000 ]};
        pendingSelfDestructCodes := ∅ |})
  ∧ Update one_gadget agent_id (backdated 8640000000000001) (at_time 5000)
    = (Error 400 Thrown, one_gadget)
  ∧ Update one_gadget agent_id
      (name_only (String.concat "" (replicate 256 "a"))) (at_time 5000)
    = (Error 400 Thrown, one_gadget).
Proof. split_and!; vm_compute; reflexivity. Qed.

(** ** The end of the vocabulary *)

Section Vocabulary.
Import Gadget.

(** X16.  Once each of the fourteen codenames is borne by a gadget, the
    create route never replies: whatever is drawn, the loop of
    [generateUniqueCodename] is still running after the last draw. *)
Theorem Create_never_replies_when_full (w : World) (body : gmap string JsVal)
    (draws : list nat) (uuid : string) (now : Z) :
  Forall (λ noun, ∃ k r, gadgets w !! k = Some r ∧ name r = "The " +:+ noun)
    nouns →
  Forall (λ i, (i < length nouns)%nat) draws →
  Create w body draws uuid now = None.
Proof.
  intros Hfull Hdraws. unfold Create.
  rewrite generateUniqueCodename_loops; [done |].
  eapply Forall_impl; [exact Hdraws |]. intros i Hi. simpl in Hi.
  destruct (lookup_lt_is_Some_2 nouns i Hi) as [noun Hnoun].
  apply findOne_name_is_Some. unfold generateCodename. rewrite Hnoun. simpl.
  by apply (proj1 (Forall_lookup _ _) Hfull i noun).
Qed.
End Vocabulary.

Lemma Create_never_replies_when_full_witness :
  Create full_house ∅ [3; 0; 13; 7; 7; 1]%nat agent_id 900 = None.
Proof.
  apply (Create_never_replies_when_full full_house ∅ [3; 0; 13; 7; 7; 1]%nat
           agent_id 900).
  - repeat constructor; apply findOne_name_is_Some; vm_compute; eauto.
  - repeat constructor; simpl; lia.
Defined.

(** ** Logging in *)

Section LoggingIn.
Context `{Bcrypt}.

(** The login route has two replies.  It replies 200, with a token
    that carries the id of the user's row and expires 3600 seconds after
    it was issued, when the username is in the table and [bcrypt] matches
    the password against the stored one; and in every other case 401 with
    the same text, whether the username is unknown or the password
    wrong. *)
Theorem Login_replies (users : gmap string User.t) (username password : string)
    (now : Z) :
  (∃ user,
     users !! username = Some user
     ∧ bcrypt_compare password (User.password user) = true
     ∧ Login users username password now
       = Json 200 {| token_id := User.id user; token_iat := now;
                     token_exp := now + 3600 |})
  ∨ ((users !! username = None
      ∨ ∃ user, users !! username = Some user
                ∧ bcrypt_compare password (User.password user) = false)
     ∧ Login users username password now
       = Error 401 (Text "Invalid credentials")).
Proof.
  unfold Login, User.findOne_username.
  destruct (users !! username) as [user |] eqn:Huser; [| right; by auto].
  destruct (bcrypt_compare password (User.password user)) eqn:Hmatch; simpl.
  - left. eauto.
  - right. split; [right; eauto | done].
Qed.
End LoggingIn.
